(** * Four-lepton candidate search of the PHY307 hands-on notebook

    A shallow embedding of [find_4lep] and of the Z-pair selection that
    [RunSamples] performs on its output (notebook [Exercise.ipynb]).

    - Lepton indices are [nat]; charges are [Z].  The notebook reads the
      charges as 32-bit integers and numba adds them in 64 bits, so the sum
      of two charges never wraps and [Z.add] is exact.
    - The [ak.ArrayBuilder] that [find_4lep] fills is a piece of state: the
      lists already closed and the list under construction.
    - [find_4lep] runs in a state-and-failure monad.  The state carries the
      builder and a counter of loop iterations; failure stands for a Python
      exception ([IndexError], or [end_list] without [begin_list]).
    - Masses are floating-point numbers computed by the [vector] library;
      they enter as a parameter [zdist] that gives, for a four-momentum, the
      computed [abs(p4.mass - 91.1876)] as a rational (every finite double
      is one, and doubles compare as the rationals they denote). *)

From Stdlib Require Import ZArith QArith Qabs.
From stdpp Require Import base option list sorting gmap.

Local Open Scope nat_scope.

(** ** The array builder *)

(** One emitted tuple [(i0, i1, i2, i3)]. *)
Definition Candidate : Type := nat * nat * nat * nat.

Record ArrayBuilder : Type := mkBuilder {
  closed : list (list Candidate);        (* lists ended by [end_list] *)
  current : option (list Candidate)      (* the list begun and not yet ended *)
}.

(** [ak.ArrayBuilder()] *)
Definition new_builder : ArrayBuilder := mkBuilder [] None.

(** [builder.snapshot()]: a list still under construction shows with the
    tuples it holds so far. *)
Definition snapshot (b : ArrayBuilder) : list (list Candidate) :=
  closed b ++ match current b with Some l => [l] | None => [] end.

(** ** The monad of [find_4lep] *)

Record St : Type := mkSt {
  builder : ArrayBuilder;
  iterations : nat                       (* loop bodies entered so far *)
}.

Definition Run (A : Type) : Type := St → option (A * St).

#[global] Instance Run_ret : MRet Run := λ A x s, Some (x, s).
#[global] Instance Run_bind : MBind Run := λ A B f m s,
  match m s with
  | Some (a, s') => f a s'
  | None => None
  end.

(** Raising an exception. *)
Definition raise {A : Type} : Run A := λ _, None.

(** [builder.begin_list()].  The notebook never nests lists, and a list
    begun inside another one is outside this model. *)
Definition begin_list : Run unit := λ s,
  match current (builder s) with
  | None => Some (tt, mkSt (mkBuilder (closed (builder s)) (Some [])) (iterations s))
  | Some _ => None
  end.

(** [builder.end_list()]: an error when no list is open. *)
Definition end_list : Run unit := λ s,
  match current (builder s) with
  | Some l => Some (tt, mkSt (mkBuilder (closed (builder s) ++ [l]) None) (iterations s))
  | None => None
  end.

(** [builder.begin_tuple(4)], the four [builder.index(k).integer(ik)] and
    [builder.end_tuple()], as one step that appends the tuple to the open
    list. *)
Definition tuple4 (i0 i1 i2 i3 : nat) : Run unit := λ s,
  match current (builder s) with
  | Some l => Some (tt, mkSt (mkBuilder (closed (builder s)) (Some (l ++ [(i0, i1, i2, i3)]))) (iterations s))
  | None => None
  end.

(** Entering a loop body. *)
Definition tick : Run unit := λ s,
  Some (tt, mkSt (builder s) (S (iterations s))).

(** [for x in l: body], not counted. *)
Fixpoint for_each {A : Type} (l : list A) (body : A → Run unit) : Run unit :=
  match l with
  | [] => mret tt
  | x :: l' => body x ;; for_each l' body
  end.

(** [range(a, b)] *)
Definition range (a b : nat) : list nat := seq a (b - a).

(** [for i in range(a, b): body], every iteration counted. *)
Definition for_range (a b : nat) (body : nat → Run unit) : Run unit :=
  for_each (range a b) (λ i, tick ;; body i).

(** [continue] at the end of what remains of a loop body. *)
Definition continue : Run unit := mret tt.

(** [lep_charge[i]] for an index [i >= 0]: [IndexError] out of range. *)
Definition getitem {A : Type} (l : list A) (i : nat) : Run A :=
  match l !! i with
  | Some x => mret x
  | None => raise
  end.

(** [len({i0, i1, i2, i3})] *)
Definition len_set4 (i0 i1 i2 i3 : nat) : nat :=
  size ({[ i0; i1; i2; i3 ]} : gset nat).

Section Notebook.

(** A four-momentum as the [vector] library holds it, the sum of two of
    them (what [+] does on [Momentum4D] records), and the distance of its
    mass from the nominal Z mass: [abs(p.mass - 91.1876)]. *)
Variable P4 : Type.
Variable p4_add : P4 → P4 → P4.
Variable zdist : P4 → Q.

(** ** Leptons *)

Record Lepton : Type := mkLepton {
  charge : Z;
  p4 : P4
}.

(** ** [find_4lep] *)

(** The body of the loop over events: one event's leptons and their
    charges. *)
Definition find_4lep_event (leptons : list Lepton) (lep_charge : list Z) : Run unit :=
  begin_list ;;
  let nlep := length leptons in
  for_range 0 nlep (λ i0,
    for_range (i0 + 1) nlep (λ i1,
      c0 ← getitem lep_charge i0;
      c1 ← getitem lep_charge i1;
      if negb (c0 + c1 =? 0)%Z then continue else
      for_range 0 nlep (λ i2,
        for_range (i2 + 1) nlep (λ i3,
          if len_set4 i0 i1 i2 i3 <? 4 then continue else
          c2 ← getitem lep_charge i2;
          c3 ← getitem lep_charge i3;
          if negb (c2 + c3 =? 0)%Z then continue else
          tuple4 i0 i1 i2 i3)))) ;;
  end_list.

(** [events_leptons.charge] *)
Definition events_charge (events_leptons : list (list Lepton)) : list (list Z) :=
  map (map charge) events_leptons.

Definition find_4lep (events_leptons : list (list Lepton)) : Run unit :=
  for_each (zip events_leptons (events_charge events_leptons))
           (λ ev, find_4lep_event ev.1 ev.2).

(** [find_4lep(events_leptons, ak.ArrayBuilder())], with the number of loop
    iterations it took. *)
Definition run_find_4lep (events_leptons : list (list Lepton)) : option (ArrayBuilder * nat) :=
  match find_4lep events_leptons (mkSt new_builder 0) with
  | Some (_, s) => Some (builder s, iterations s)
  | None => None
  end.

(** [find_4lep(events_leptons, ak.ArrayBuilder()).snapshot()] *)
Definition find_4lep_snapshot (events_leptons : list (list Lepton)) : option (list (list Candidate)) :=
  match run_find_4lep events_leptons with
  | Some (b, _) => Some (snapshot b)
  | None => None
  end.

(** The finder on one event: the candidates of a batch holding just that
    event. *)
Definition findCandidates (leptons : list Lepton) : option (list Candidate) :=
  match find_4lep_snapshot [leptons] with
  | Some [cs] => Some cs
  | _ => None
  end.

(** The loop iterations the finder takes on one event. *)
Definition findIterations (leptons : list Lepton) : option nat :=
  match run_find_4lep [leptons] with
  | Some (_, n) => Some n
  | None => None
  end.

(** ** The Z-pair selection of [RunSamples] *)

(** One Z candidate: the record [{lep1, lep2, p4}] that [ak.zip] builds. *)
Record ZCand : Type := mkZCand {
  lep1 : Lepton;
  lep2 : Lepton;
  zp4 : P4
}.

(** The record [{z1, z2}]. *)
Record FourMuon : Type := mkFourMuon {
  z1 : ZCand;
  z2 : ZCand
}.

(** The event filter in front of [find_4lep]: four muons, two of charge
    [+1] and two of charge [-1]. *)
Definition muon_counts (muons : list Lepton) : bool :=
  (length muons =? 4)
  && (length (filter (λ m, charge m = 1%Z) muons) =? 2)
  && (length (filter (λ m, charge m = (-1)%Z) muons) =? 2).

(** [muons[fourmuon[idx]] for idx in "0123"] followed by the two [ak.zip]:
    the columnar operations act on every candidate alike, so they are given
    for one candidate.  [None] is the [IndexError] of an index out of
    range. *)
Definition zip_fourmuon (muons : list Lepton) (c : Candidate) : option FourMuon :=
  let '(i0, i1, i2, i3) := c in
  l0 ← muons !! i0;
  l1 ← muons !! i1;
  l2 ← muons !! i2;
  l3 ← muons !! i3;
  Some (mkFourMuon (mkZCand l0 l1 (p4_add (p4 l0) (p4 l1)))
                   (mkZCand l2 l3 (p4_add (p4 l2) (p4 l3)))).

Definition Qlt_bool (x y : Q) : bool := negb (Qle_bool y x).

(** [ak.argmin] along one list: the position of the first element that no
    other one is strictly below; [None] on the empty list. *)
Fixpoint argmin_from (best : nat) (vbest : Q) (k : nat) (l : list Q) : nat :=
  match l with
  | [] => best
  | x :: l' =>
      if Qlt_bool x vbest then argmin_from k x (S k) l'
      else argmin_from best vbest (S k) l'
  end.

Definition argmin (l : list Q) : option nat :=
  match l with
  | [] => None
  | x :: l' => Some (argmin_from 0 x 1 l')
  end.

(** [ak.singletons]: a missing value becomes the empty list. *)
Definition singletons {A : Type} (o : option A) : list A :=
  match o with
  | Some x => [x]
  | None => []
  end.

(** [abs(fourmuon.z1.p4.mass - 91.1876)] and the same for [z2]. *)
Definition z1dist (f : FourMuon) : Q := zdist (zp4 (z1 f)).
Definition z2dist (f : FourMuon) : Q := zdist (zp4 (z2 f)).

(** [bestz1] for one event. *)
Definition bestz1 (fourmuon : list FourMuon) : list nat :=
  singletons (argmin (map z1dist fourmuon)).

(** [fourmuon[bestz1]] for one event. *)
Definition select_event (fourmuon : list FourMuon) : option (list FourMuon) :=
  mapM (λ i, fourmuon !! i) (bestz1 fourmuon).

(** [ak.flatten(fourmuon[bestz1])] over the events of a batch. *)
Definition select_batch (fourmuon : list (list FourMuon)) : option (list FourMuon) :=
  picked ← mapM select_event fourmuon;
  Some (concat picked).

(** [RunSamples] on one batch, from the event filter to the flattened
    selection; [muons] are the muons left by the kinematic selection. *)
Definition RunSamples_fourmuon (muons : list (list Lepton)) : option (list FourMuon) :=
  let muons := filter (λ m, muon_counts m = true) muons in
  if length muons =? 0 then Some [] else
  fourmuon ← find_4lep_snapshot muons;
  fourmuon ← mapM (λ ev, mapM (zip_fourmuon ev.1) ev.2) (zip muons fourmuon);
  select_batch fourmuon.

End Notebook.

Arguments charge {P4} _.
Arguments p4 {P4} _.
Arguments mkLepton {P4} _ _.
Arguments find_4lep_event {P4} _ _.
Arguments events_charge {P4} _.
Arguments find_4lep {P4} _.
Arguments run_find_4lep {P4} _.
Arguments find_4lep_snapshot {P4} _.
Arguments findCandidates {P4} _.
Arguments findIterations {P4} _.
Arguments muon_counts {P4} _.
Arguments lep1 {P4} _.
Arguments lep2 {P4} _.
Arguments zp4 {P4} _.
Arguments z1 {P4} _.
Arguments z2 {P4} _.
Arguments mkZCand {P4} _ _ _.
Arguments mkFourMuon {P4} _ _.
Arguments zip_fourmuon {P4} _ _ _.
Arguments z1dist {P4} _ _.
Arguments z2dist {P4} _ _.
Arguments bestz1 {P4} _ _.
Arguments select_event {P4} _ _.
Arguments select_batch {P4} _ _.
Arguments RunSamples_fourmuon {P4} _ _ _.

(** The charges of one event's leptons and their number, as [find_4lep]
    binds them to [lep_charge] and [nlep]. *)
Definition charges {P4 : Type} (leptons : list (Lepton P4)) : list Z := map charge leptons.

(** ** What one event contributes, as list comprehensions

    The candidates and the iteration count of [find_4lep_event] written
    without the monad; [find_4lep_event_steps] below shows that the loops
    compute exactly these. *)

(** [lep_charge[i] + lep_charge[j] == 0], false out of range. *)
Definition balanced (lep_charge : list Z) (i j : nat) : bool :=
  match lep_charge !! i, lep_charge !! j with
  | Some ci, Some cj => (ci + cj =? 0)%Z
  | _, _ => false
  end.

Definition second_pair (lep_charge : list Z) (i0 i1 i2 i3 : nat) : list Candidate :=
  if len_set4 i0 i1 i2 i3 <? 4 then []
  else if balanced lep_charge i2 i3 then [(i0, i1, i2, i3)] else [].

Definition second_pairs (nlep : nat) (lep_charge : list Z) (i0 i1 : nat) : list Candidate :=
  flat_map (λ i2, flat_map (second_pair lep_charge i0 i1 i2) (range (i2 + 1) nlep))
           (range 0 nlep).

Definition first_pair (nlep : nat) (lep_charge : list Z) (i0 i1 : nat) : list Candidate :=
  if balanced lep_charge i0 i1 then second_pairs nlep lep_charge i0 i1 else [].

Definition candidates_of (nlep : nat) (lep_charge : list Z) : list Candidate :=
  flat_map (λ i0, flat_map (first_pair nlep lep_charge i0) (range (i0 + 1) nlep))
           (range 0 nlep).

Definition cost_second (nlep : nat) : nat :=
  sum_list_with (λ i2, S (sum_list_with (λ _, 1) (range (i2 + 1) nlep))) (range 0 nlep).

Definition cost_first (nlep : nat) (lep_charge : list Z) (i0 i1 : nat) : nat :=
  if balanced lep_charge i0 i1 then cost_second nlep else 0.

Definition cost_of (nlep : nat) (lep_charge : list Z) : nat :=
  sum_list_with
    (λ i0, S (sum_list_with (λ i1, S (cost_first nlep lep_charge i0 i1)) (range (i0 + 1) nlep)))
    (range 0 nlep).

(** A computation that, run with a list open, appends [cs] to it, adds [k]
    to the iteration count and raises nothing. *)
Definition steps (m : Run unit) (cs : list Candidate) (k : nat) : Prop :=
  ∀ done l n,
    m (mkSt (mkBuilder done (Some l)) n)
    = Some (tt, mkSt (mkBuilder done (Some (l ++ cs))) (n + k)).

(** ** Notions the statements use *)

(** The lexicographic order on tuples [(i0, i1, i2, i3)]. *)
Definition lex_lt (c d : Candidate) : Prop :=
  let '(a0, a1, a2, a3) := c in
  let '(b0, b1, b2, b3) := d in
  a0 < b0 ∨ (a0 = b0 ∧ (a1 < b1 ∨ (a1 = b1 ∧ (a2 < b2 ∨ (a2 = b2 ∧ a3 < b3))))).

(** The same candidate with its two pairs exchanged. *)
Definition pair_swap (c : Candidate) : Candidate :=
  let '(i0, i1, i2, i3) := c in (i2, i3, i0, i1).

(** The way a candidate splits its four indices into two pairs, with no
    order inside a pair and none between the pairs. *)
Definition split_of (c : Candidate) : gset (gset nat) :=
  let '(i0, i1, i2, i3) := c in {[ {[ i0; i1 ]}; {[ i2; i3 ]} ]}.

(** A lepton of charge [c] whose momentum plays no role. *)
Definition lepton_of_charge (c : Z) : Lepton unit := mkLepton c tt.

(** A lepton whose four-momentum is reduced to a mass, for examples in
    which pair masses add up: [zdist_of_mass] is then the exact
    [|m - 91.1876|]. *)
Definition lepton_of_mass (c : Z) (m : Q) : Lepton Q := mkLepton c m.
Definition zdist_of_mass (m : Q) : Q := Qabs (m - 91.1876).

(** ** The rest of [RunSamples]: cuts and histograms *)

(** A [bh.Histogram] is followed through the values it is filled with, in
    the order of filling; the binning is boost_histogram's. *)
Record Hists : Type := mkHists {
  m4l : list Q;
  mz1 : list Q;
  mz2 : list Q;
  iso : list Q
}.

(** The four empty histograms that [RunSamples] starts from. *)
Definition new_hists : Hists := mkHists [] [] [] [].

(** [hist.fill(values)] *)
Definition fill (hist values : list Q) : list Q := hist ++ values.

Section Cuts.

(** What the notebook computes in floating point enters as parameters:
    the sum of two four-momenta, [p.mass], [abs(p.mass - 91.1876)],
    [a.deltaR(b)], the field [pfRelIso04_all], and the two groups of muon
    cuts, [(pt > 5) & (abs(eta) < 2.4)] and the isolation and
    impact-parameter cuts that [apply_muon_id] adds. *)
Context {P4 : Type}.
Variable p4_add : P4 → P4 → P4.
Variable p4_mass : P4 → Q.
Variable zdist : P4 → Q.
Variable deltaR : Lepton P4 → Lepton P4 → Q.
Variable pfRelIso04_all : Lepton P4 → Q.
Variable kinematic_cut : Lepton P4 → bool.
Variable quality_cut : Lepton P4 → bool.

(** [muon_selection], one muon at a time. *)
Definition muon_selection (apply_muon_id : bool) (m : Lepton P4) : bool :=
  if apply_muon_id then kinematic_cut m && quality_cut m else kinematic_cut m.

(** The events of a batch that reach [find_4lep]: those of exactly four
    muons, reduced to the muons that pass [muon_selection], and kept if
    [muon_counts] holds of what is left. *)
Definition four_muon_branches (branches : list (list (Lepton P4))) : list (list (Lepton P4)) :=
  filter (λ ev, length ev = 4) branches.

Definition selected_muons (apply_muon_id : bool) (branches : list (list (Lepton P4)))
    : list (list (Lepton P4)) :=
  map (filter (λ m, muon_selection apply_muon_id m = true)) (four_muon_branches branches).

Definition counted_muons (apply_muon_id : bool) (branches : list (list (Lepton P4)))
    : list (list (Lepton P4)) :=
  filter (λ m, muon_counts m = true) (selected_muons apply_muon_id branches).

(** [fourmuon_sel], one assignment at a time; [0.02] is the double so
    written. *)
Definition deltaR_cut (f : FourMuon P4) : bool :=
  Qlt_bool 0.02 (deltaR (lep1 (z1 f)) (lep2 (z1 f)))
  && Qlt_bool 0.02 (deltaR (lep1 (z2 f)) (lep2 (z2 f))).

Definition fourmuon_sel (apply_Z_mass : bool) (z1range z2range : Q * Q) (f : FourMuon P4) : bool :=
  if apply_Z_mass then
    Qlt_bool z1range.1 (p4_mass (zp4 (z1 f))) && Qlt_bool (p4_mass (zp4 (z1 f))) z1range.2
    && Qlt_bool z2range.1 (p4_mass (zp4 (z2 f))) && Qlt_bool (p4_mass (zp4 (z2 f))) z2range.2
    && Qlt_bool 0.02 (deltaR (lep1 (z1 f)) (lep2 (z1 f)))
    && Qlt_bool 0.02 (deltaR (lep1 (z2 f)) (lep2 (z2 f)))
  else deltaR_cut f.

(** The body of the loop over batches in [RunSamples]. *)
Definition RunSamples_batch (apply_muon_id apply_Z_mass : bool) (z1range z2range : Q * Q)
    (hists : Hists) (branches : list (list (Lepton P4))) : option Hists :=
  let muons := selected_muons apply_muon_id branches in
  let hists :=
    mkHists (m4l hists) (mz1 hists) (mz2 hists)
            (fill (iso hists) (concat (map (map pfRelIso04_all) muons))) in
  let muons := filter (λ m, muon_counts m = true) muons in
  if length muons =? 0 then Some hists else
  fourmuon ← find_4lep_snapshot muons;
  fourmuon ← mapM (λ ev, mapM (zip_fourmuon p4_add ev.1) ev.2) (zip muons fourmuon);
  fourmuon ← select_batch zdist fourmuon;
  let fourmuon := filter (λ f, fourmuon_sel apply_Z_mass z1range z2range f = true) fourmuon in
  Some (mkHists
          (fill (m4l hists) (map (λ f, p4_mass (p4_add (zp4 (z1 f)) (zp4 (z2 f)))) fourmuon))
          (fill (mz1 hists) (map (λ f, p4_mass (zp4 (z1 f))) fourmuon))
          (fill (mz2 hists) (map (λ f, p4_mass (zp4 (z2 f))) fourmuon))
          (iso hists)).

(** The loop over the batches that [uproot.iterate] delivers. *)
Fixpoint RunSamples_loop (apply_muon_id apply_Z_mass : bool) (z1range z2range : Q * Q)
    (hists : Hists) (batches : list (list (list (Lepton P4)))) : option Hists :=
  match batches with
  | [] => Some hists
  | branches :: batches =>
      hists ← RunSamples_batch apply_muon_id apply_Z_mass z1range z2range hists branches;
      RunSamples_loop apply_muon_id apply_Z_mass z1range z2range hists batches
  end.

Definition RunSamples (apply_muon_id apply_Z_mass : bool) (z1range z2range : Q * Q)
    (batches : list (list (list (Lepton P4)))) : option Hists :=
  RunSamples_loop apply_muon_id apply_Z_mass z1range z2range new_hists batches.

(** ** [CalculateFourMuonMass] *)

(** [events[:, k]]: the [k]-th entry of every event, an [IndexError] when
    some event is too short. *)
Definition column {A : Type} (events : list (list A)) (k : nat) : option (list A) :=
  mapM (λ ev, ev !! k) events.

(** The body of the loop over batches: [muons] holds one list of
    four-momenta for every event. *)
Definition CalculateFourMuonMass_batch (hist : list Q) (muons : list (list P4)) : option (list Q) :=
  let four_muon_events := filter (λ ev, length ev = 4) muons in
  c0 ← column four_muon_events 0;
  c1 ← column four_muon_events 1;
  c2 ← column four_muon_events 2;
  c3 ← column four_muon_events 3;
  let four_muon_system := zip_with p4_add (zip_with p4_add (zip_with p4_add c0 c1) c2) c3 in
  Some (fill hist (map p4_mass four_muon_system)).

Fixpoint CalculateFourMuonMass_loop (hist : list Q) (batches : list (list (list P4)))
    : option (list Q) :=
  match batches with
  | [] => Some hist
  | muons :: batches =>
      hist ← CalculateFourMuonMass_batch hist muons;
      CalculateFourMuonMass_loop hist batches
  end.

(** ** Notions the further statements use *)

(** What one event that reached [find_4lep] hands to the histograms: its
    selected assignment, as a list of at most one element. *)
Definition event_assignment (muons : list (Lepton P4)) : list (FourMuon P4) :=
  default [] (mapM (zip_fourmuon p4_add muons)
                   (candidates_of (length muons) (charges muons))
              ≫= select_event zdist).

(** The four-muon mass of one event of [CalculateFourMuonMass]. *)
Definition four_muon_mass (ev : list P4) : option Q :=
  match ev with
  | [a; b; c; d] => Some (p4_mass (p4_add (p4_add (p4_add a b) c) d))
  | _ => None
  end.

End Cuts.

(** The same lepton with the opposite charge. *)
Definition flip_charge {P4 : Type} (l : Lepton P4) : Lepton P4 :=
  mkLepton (- charge l)%Z (p4 l).

(** The leptons of an assignment, in the order [z1.lep1], [z1.lep2],
    [z2.lep1], [z2.lep2]. *)
Definition leptons_of {P4 : Type} (f : FourMuon P4) : list (Lepton P4) :=
  [lep1 (z1 f); lep2 (z1 f); lep1 (z2 f); lep2 (z2 f)].

(** The positions of the leptons of charge [c] in an event. *)
Definition indices_of_charge {P4 : Type} (c : Z) (leptons : list (Lepton P4)) : list nat :=
  filter (λ i, charge <$> leptons !! i = Some c) (seq 0 (length leptons)).

(** The candidates counted another way: choose a positive and a negative
    lepton for the first pair, then a positive and a negative one among
    the rest for the second pair, and put the smaller index first in each
    pair. *)
Definition paired_candidates (pos neg : list nat) : list Candidate :=
  flat_map
    (λ ab : nat * nat,
       map (λ ab' : nat * nat,
              (ab.1 `min` ab.2, ab.1 `max` ab.2, ab'.1 `min` ab'.2, ab'.1 `max` ab'.2))
           (list_prod (filter (λ i, i ≠ ab.1) pos) (filter (λ i, i ≠ ab.2) neg)))
    (list_prod pos neg).

(** ** The distance from the nominal Z mass, and the pairing stage *)

(** [abs(p.mass - 91.1876)] for a four-momentum [p] of mass [p4_mass p].
    [rnd] stands for the rounding of the floating-point subtraction; with
    the identity for [rnd] this is the exact [|m - 91.1876|]. *)
Definition z_mass_dist {P4 : Type} (p4_mass : P4 → Q) (rnd : Q → Q) (p : P4) : Q :=
  rnd (Qabs (p4_mass p - 91.1876)).

(** Whether some list of a snapshot holds a tuple.  An array that
    [ak.ArrayBuilder] built without ever beginning a tuple has no record
    type, hence no fields ["0"] to ["3"]. *)
Definition has_tuples (fourmuon : list (list Candidate)) : bool :=
  bool_decide (concat fourmuon ≠ []).

(** Lines 455 to 471 of [RunSamples] on the muons they are handed, without
    the event filter and the [continue] in front of them: [find_4lep], the
    field accesses [fourmuon[idx]] (which raise when the snapshot has no
    tuple at all), the two [ak.zip], and the selection. *)
Definition RunSamples_pairing {P4 : Type} (p4_add : P4 → P4 → P4) (zdist : P4 → Q)
    (muons : list (list (Lepton P4))) : option (list (FourMuon P4)) :=
  fourmuon ← find_4lep_snapshot muons;
  if has_tuples fourmuon then
    fourmuon ← mapM (λ ev, mapM (zip_fourmuon p4_add ev.1) ev.2) (zip muons fourmuon);
    select_batch zdist fourmuon
  else None.

(** [a] is the assignment of an event with candidates [cs] that the
    selection has to return: it is built from one of the candidates, with
    the leptons at its four indices and the sums of their momenta, the
    distance [dist] of its first pair is the least among the first pairs
    of all candidates, and at most the distance of its own second pair. *)
Definition best_pairing {P4 : Type} (p4_add : P4 → P4 → P4) (dist : P4 → Q)
    (leptons : list (Lepton P4)) (cs : list Candidate) (a : FourMuon P4) : Prop :=
  ∃ i0 i1 i2 i3 l0 l1 l2 l3,
    (i0, i1, i2, i3) ∈ cs
    ∧ leptons !! i0 = Some l0 ∧ leptons !! i1 = Some l1
    ∧ leptons !! i2 = Some l2 ∧ leptons !! i3 = Some l3
    ∧ a = mkFourMuon (mkZCand l0 l1 (p4_add (p4 l0) (p4 l1)))
                     (mkZCand l2 l3 (p4_add (p4 l2) (p4 l3)))
    ∧ (∀ j0 j1 j2 j3 m0 m1,
         (j0, j1, j2, j3) ∈ cs → leptons !! j0 = Some m0 → leptons !! j1 = Some m1 →
         (dist (p4_add (p4 l0) (p4 l1)) <= dist (p4_add (p4 m0) (p4 m1)))%Q)
    ∧ (dist (p4_add (p4 l0) (p4 l1)) <= dist (p4_add (p4 l2) (p4 l3)))%Q.

(** ** The model on small inputs *)

Example find_4lep_five_leptons :
  findCandidates (map lepton_of_charge [1; -1; 1; -1; 1]%Z)
  = Some [(0, 1, 2, 3); (0, 1, 3, 4); (0, 3, 1, 2); (0, 3, 1, 4);
          (1, 2, 0, 3); (1, 2, 3, 4); (1, 4, 0, 3); (1, 4, 2, 3);
          (2, 3, 0, 1); (2, 3, 1, 4); (3, 4, 0, 1); (3, 4, 1, 2)].
Proof. by vm_compute. Qed.

Example find_4lep_batch_of_three :
  find_4lep_snapshot [map lepton_of_charge [1; 1; -1; -1]%Z; [];
                      map lepton_of_charge [1; -1; 2]%Z]
  = Some [[(0, 2, 1, 3); (0, 3, 1, 2); (1, 2, 0, 3); (1, 3, 0, 2)]; []; []].
Proof. by vm_compute. Qed.

Example find_4lep_iterations_four :
  findIterations (map lepton_of_charge [1; -1; 1; -1]%Z) = Some 50.
Proof. by vm_compute. Qed.

Example getitem_out_of_range :
  getitem [1; -1]%Z 2 (mkSt new_builder 0) = None.
Proof. reflexivity. Qed.

Example end_list_not_begun : end_list (mkSt new_builder 0) = None.
Proof. reflexivity. Qed.

Example argmin_first_on_ties : argmin [3; 1; 2; 1]%Q = Some 1.
Proof. reflexivity. Qed.

(** Pair masses 30 + 61 = 91 and 40 + 50 = 90: the pair of leptons 0 and 3
    is the selected Z1; the events that fail the filter leave nothing. *)
Example RunSamples_one_of_three :
  RunSamples_fourmuon Qplus zdist_of_mass
    [[lepton_of_mass 1 30; lepton_of_mass (-1) 40;
      lepton_of_mass 1 50; lepton_of_mass (-1) 61];
     [];
     [lepton_of_mass 1 45; lepton_of_mass 1 46]]
  = Some [mkFourMuon
            (mkZCand (lepton_of_mass 1 30) (lepton_of_mass (-1) 61) (30 + 61)%Q)
            (mkZCand (lepton_of_mass (-1) 40) (lepton_of_mass 1 50) (40 + 50)%Q)].
Proof. by vm_compute. Qed.

(** ** The loops compute the comprehensions *)

Lemma steps_continue : steps continue [] 0.
Proof. intros done l n. cbn. by rewrite app_nil_r, Nat.add_0_r. Qed.

Lemma steps_tick : steps tick [] 1.
Proof. intros done l n. cbn. by rewrite app_nil_r, Nat.add_1_r. Qed.

Lemma steps_tuple4 i0 i1 i2 i3 : steps (tuple4 i0 i1 i2 i3) [(i0, i1, i2, i3)] 0.
Proof. intros done l n. cbn. by rewrite Nat.add_0_r. Qed.

Lemma steps_seq m1 m2 cs1 cs2 k1 k2 :
  steps m1 cs1 k1 → steps m2 cs2 k2 → steps (m1 ;; m2) (cs1 ++ cs2) (k1 + k2).
Proof.
  intros H1 H2 done l n. unfold mbind, Run_bind.
  rewrite H1, H2. by rewrite app_assoc, Nat.add_assoc.
Qed.

Lemma steps_getitem {A} (xs : list A) i x (k : A → Run unit) cs n :
  xs !! i = Some x → steps (k x) cs n → steps (getitem xs i ≫= k) cs n.
Proof.
  intros Hx Hk done l n0. unfold mbind, Run_bind, getitem.
  rewrite Hx. cbn. apply Hk.
Qed.

Lemma steps_for_each {A} (xs : list A) body f g :
  (∀ x, x ∈ xs → steps (body x) (f x) (g x)) →
  steps (for_each xs body) (flat_map f xs) (sum_list_with g xs).
Proof.
  induction xs as [|x xs IH]; intros Hbody; cbn [for_each flat_map sum_list_with].
  - apply steps_continue.
  - apply steps_seq.
    + apply Hbody. left.
    + apply IH. intros y Hy. apply Hbody. by right.
Qed.

Lemma elem_of_range a b i : i ∈ range a b ↔ a ≤ i < b.
Proof. unfold range. rewrite elem_of_seq. lia. Qed.

Lemma steps_for_range a b body f g :
  (∀ i, a ≤ i < b → steps (body i) (f i) (g i)) →
  steps (for_range a b body) (flat_map f (range a b))
        (sum_list_with (λ i, S (g i)) (range a b)).
Proof.
  intros Hbody. unfold for_range.
  apply (steps_for_each (range a b) _ f (λ i, S (g i))).
  intros i Hi. apply elem_of_range in Hi.
  apply (steps_seq tick (body i) [] (f i) 1 (g i) steps_tick).
  by apply Hbody.
Qed.

Lemma Run_bind_eq {A B} (m : Run A) (k : A → Run B) s a s' :
  m s = Some (a, s') → (m ≫= k) s = k a s'.
Proof. intros H. unfold mbind, Run_bind. by rewrite H. Qed.

Section Finder.
Context {P4 : Type}.
Implicit Types (leptons : list (Lepton P4)) (events : list (list (Lepton P4))).

Lemma find_4lep_event_steps leptons done n :
  find_4lep_event leptons (charges leptons) (mkSt (mkBuilder done None) n)
  = Some (tt, mkSt (mkBuilder (done ++ [candidates_of (length leptons) (charges leptons)]) None)
                   (n + cost_of (length leptons) (charges leptons))).
Proof.
  set (ch := charges leptons). set (nlep := length leptons).
  assert (Hlen : length ch = nlep) by apply length_map.
  assert (Hget : ∀ i, i < nlep → ∃ c, ch !! i = Some c).
  { intros i Hi. apply lookup_lt_is_Some_2. by rewrite Hlen. }
  unfold find_4lep_event. fold nlep. cbv zeta.
  erewrite Run_bind_eq by reflexivity.
  rewrite (Run_bind_eq _ _ _ tt
             (mkSt (mkBuilder done (Some ([] ++ candidates_of nlep ch))) (n + cost_of nlep ch)));
    [reflexivity|].
  unfold candidates_of, cost_of.
  apply (steps_for_range 0 nlep _
           (λ i0, flat_map (first_pair nlep ch i0) (range (i0 + 1) nlep))
           (λ i0, sum_list_with (λ i1, S (cost_first nlep ch i0 i1)) (range (i0 + 1) nlep))).
  intros i0 Hi0.
  apply (steps_for_range (i0 + 1) nlep _ (first_pair nlep ch i0) (cost_first nlep ch i0)).
  intros i1 Hi1.
  destruct (Hget i0) as [c0 Hc0]; [lia|]. destruct (Hget i1) as [c1 Hc1]; [lia|].
  eapply steps_getitem; [exact Hc0|]. eapply steps_getitem; [exact Hc1|].
  unfold first_pair, cost_first, balanced. rewrite Hc0, Hc1.
  destruct (c0 + c1 =? 0)%Z; cbn [negb]; [|apply steps_continue].
  unfold second_pairs, cost_second.
  apply (steps_for_range 0 nlep _
           (λ i2, flat_map (second_pair ch i0 i1 i2) (range (i2 + 1) nlep))
           (λ i2, sum_list_with (λ _, 1) (range (i2 + 1) nlep))).
  intros i2 Hi2.
  apply (steps_for_range (i2 + 1) nlep _ (second_pair ch i0 i1 i2) (λ _, 0)).
  intros i3 Hi3. unfold second_pair.
  destruct (len_set4 i0 i1 i2 i3 <? 4); [apply steps_continue|].
  destruct (Hget i2) as [c2 Hc2]; [lia|]. destruct (Hget i3) as [c3 Hc3]; [lia|].
  eapply steps_getitem; [exact Hc2|]. eapply steps_getitem; [exact Hc3|].
  unfold balanced. rewrite Hc2, Hc3.
  destruct (c2 + c3 =? 0)%Z; cbn [negb]; [apply steps_tuple4|apply steps_continue].
Qed.

Lemma find_4lep_steps events done n :
  find_4lep events (mkSt (mkBuilder done None) n)
  = Some (tt, mkSt (mkBuilder (done ++ map (λ ev, candidates_of (length ev) (charges ev)) events) None)
                   (n + sum_list_with (λ ev, cost_of (length ev) (charges ev)) events)).
Proof.
  revert done n. induction events as [|ev events IH]; intros done n.
  - cbn. by rewrite app_nil_r, Nat.add_0_r.
  - unfold find_4lep, events_charge. cbn [map zip zip_with for_each fst snd].
    erewrite Run_bind_eq by apply find_4lep_event_steps.
    fold (events_charge events). fold (find_4lep events).
    rewrite IH. cbn [map sum_list_with].
    by rewrite <- app_assoc, Nat.add_assoc.
Qed.

Lemma run_find_4lep_eq events :
  run_find_4lep events
  = Some (mkBuilder (map (λ ev, candidates_of (length ev) (charges ev)) events) None,
          sum_list_with (λ ev, cost_of (length ev) (charges ev)) events).
Proof. unfold run_find_4lep, new_builder. by rewrite find_4lep_steps. Qed.

Lemma find_4lep_snapshot_eq events :
  find_4lep_snapshot events
  = Some (map (λ ev, candidates_of (length ev) (charges ev)) events).
Proof.
  unfold find_4lep_snapshot. rewrite run_find_4lep_eq.
  unfold snapshot. cbn. by rewrite app_nil_r.
Qed.

Lemma findCandidates_eq leptons :
  findCandidates leptons = Some (candidates_of (length leptons) (charges leptons)).
Proof. unfold findCandidates. by rewrite find_4lep_snapshot_eq. Qed.

Lemma findIterations_eq leptons :
  findIterations leptons = Some (cost_of (length leptons) (charges leptons)).
Proof.
  unfold findIterations. rewrite run_find_4lep_eq. cbn. by rewrite Nat.add_0_r.
Qed.

(** A batch is searched event by event. *)
Lemma find_4lep_snapshot_events events :
  find_4lep_snapshot events = mapM findCandidates events.
Proof.
  rewrite find_4lep_snapshot_eq. symmetry. apply mapM_Some_2.
  induction events; constructor; auto using findCandidates_eq.
Qed.

End Finder.

(** ** Membership in the candidate list *)

Lemma elem_of_flat_map {A B} (f : A → list B) (l : list A) (y : B) :
  y ∈ flat_map f l ↔ ∃ x, x ∈ l ∧ y ∈ f x.
Proof.
  rewrite list_elem_of_In, in_flat_map.
  split; intros (x & Hx & Hy); exists x; by rewrite ?list_elem_of_In in *.
Qed.

Lemma size_list_to_set_le (l : list nat) :
  size (list_to_set l : gset nat) ≤ length l.
Proof.
  induction l as [|x l IH]; [done|].
  rewrite list_to_set_cons, size_union_alt, size_singleton. cbn [length].
  assert (size (list_to_set l ∖ {[x]} : gset nat) ≤ size (list_to_set l : gset nat)).
  { apply subseteq_size. set_solver. }
  lia.
Qed.

Lemma size_list_to_set_NoDup (l : list nat) :
  size (list_to_set l : gset nat) = length l ↔ NoDup l.
Proof.
  split; [|apply size_list_to_set].
  induction l as [|x l IH]; [constructor|].
  rewrite list_to_set_cons, size_union_alt, size_singleton. cbn [length].
  intros Hsz. pose proof (size_list_to_set_le l) as Hle.
  assert (Hsub : size (list_to_set l ∖ {[x]} : gset nat) ≤ size (list_to_set l : gset nat)).
  { apply subseteq_size. set_solver. }
  constructor.
  - intros Hx.
    assert (Hlt : size (list_to_set l ∖ {[x]} : gset nat) < size (list_to_set l : gset nat)).
    { apply subset_size. set_solver. }
    lia.
  - apply IH. lia.
Qed.

Lemma len_set4_NoDup i0 i1 i2 i3 :
  (len_set4 i0 i1 i2 i3 <? 4) = false ↔ NoDup [i0; i1; i2; i3].
Proof.
  rewrite <- size_list_to_set_NoDup. unfold len_set4.
  replace ({[ i0; i1; i2; i3 ]} : gset nat) with (list_to_set [i0; i1; i2; i3] : gset nat)
    by set_solver.
  pose proof (size_list_to_set_le [i0; i1; i2; i3]) as Hle. cbn [length] in *.
  rewrite Nat.ltb_ge. lia.
Qed.

Lemma NoDup4_iff (i0 i1 i2 i3 : nat) :
  NoDup [i0; i1; i2; i3]
  ↔ i0 ≠ i1 ∧ i0 ≠ i2 ∧ i0 ≠ i3 ∧ i1 ≠ i2 ∧ i1 ≠ i3 ∧ i2 ≠ i3.
Proof.
  rewrite !NoDup_cons, !not_elem_of_cons. 
  split; [naive_solver|].
  intros (?&?&?&?&?&?). repeat split; try done; try apply not_elem_of_nil.
  constructor.
Qed.

Lemma elem_of_second_pair ch i0 i1 i2 i3 c :
  c ∈ second_pair ch i0 i1 i2 i3
  ↔ c = (i0, i1, i2, i3) ∧ NoDup [i0; i1; i2; i3] ∧ balanced ch i2 i3 = true.
Proof.
  unfold second_pair. rewrite <- len_set4_NoDup.
  destruct (len_set4 i0 i1 i2 i3 <? 4); [set_solver|].
  destruct (balanced ch i2 i3); set_solver.
Qed.

Lemma elem_of_second_pairs n ch i0 i1 c :
  c ∈ second_pairs n ch i0 i1
  ↔ ∃ i2 i3, c = (i0, i1, i2, i3) ∧ i2 < i3 < n
             ∧ NoDup [i0; i1; i2; i3] ∧ balanced ch i2 i3 = true.
Proof.
  unfold second_pairs. rewrite elem_of_flat_map. split.
  - intros (i2 & Hi2 & Hc). apply elem_of_flat_map in Hc as (i3 & Hi3 & Hc).
    apply elem_of_range in Hi2, Hi3. apply elem_of_second_pair in Hc as (-> & ? & ?).
    exists i2, i3. repeat split; auto; lia.
  - intros (i2 & i3 & -> & ? & ? & ?). exists i2. split; [apply elem_of_range; lia|].
    apply elem_of_flat_map. exists i3. split; [apply elem_of_range; lia|].
    by apply elem_of_second_pair.
Qed.

Lemma elem_of_candidates_of n ch i0 i1 i2 i3 :
  (i0, i1, i2, i3) ∈ candidates_of n ch
  ↔ i0 < i1 < n ∧ i2 < i3 < n ∧ NoDup [i0; i1; i2; i3]
    ∧ balanced ch i0 i1 = true ∧ balanced ch i2 i3 = true.
Proof.
  unfold candidates_of. rewrite elem_of_flat_map. split.
  - intros (j0 & Hj0 & Hc). apply elem_of_flat_map in Hc as (j1 & Hj1 & Hc).
    apply elem_of_range in Hj0, Hj1. unfold first_pair in Hc.
    destruct (balanced ch j0 j1) eqn:Hb; [|by apply elem_of_nil in Hc].
    apply elem_of_second_pairs in Hc as (j2 & j3 & [= -> -> -> ->] & ? & ? & ?).
    repeat split; auto; lia.
  - intros (? & ? & ? & Hb & ?). exists i0. split; [apply elem_of_range; lia|].
    apply elem_of_flat_map. exists i1. split; [apply elem_of_range; lia|].
    unfold first_pair. rewrite Hb. apply elem_of_second_pairs.
    exists i2, i3. repeat split; auto; lia.
Qed.

Lemma elem_of_first_pair n ch i0 i1 c :
  c ∈ first_pair n ch i0 i1 → ∃ i2 i3, c = (i0, i1, i2, i3).
Proof.
  unfold first_pair. destruct (balanced ch i0 i1); [|by intros ?%elem_of_nil].
  intros (i2 & i3 & -> & _)%elem_of_second_pairs. by exists i2, i3.
Qed.

(** ** Order of emission *)

Lemma StronglySorted_range a b : StronglySorted lt (range a b).
Proof.
  unfold range. generalize (b - a) as k. intros k. revert a.
  induction k as [|k IH]; intros a; cbn [seq]; constructor; [apply IH|].
  apply Forall_forall. intros i Hi%elem_of_seq. lia.
Qed.

Lemma StronglySorted_flat_map {B} (R : relation B) (f : nat → list B) (l : list nat) :
  StronglySorted lt l →
  (∀ x, x ∈ l → StronglySorted R (f x)) →
  (∀ x y a b, x ∈ l → y ∈ l → x < y → a ∈ f x → b ∈ f y → R a b) →
  StronglySorted R (flat_map f l).
Proof.
  induction 1 as [|x l Hl IH Hx]; intros Hf Hcross; cbn [flat_map]; [constructor|].
  rewrite Forall_forall in Hx.
  apply StronglySorted_app_2.
  - intros a b Ha (y & Hy & Hb)%elem_of_flat_map.
    apply (Hcross x y); auto using list_elem_of_here, list_elem_of_further.
  - apply Hf. left.
  - apply IH.
    + intros y Hy. apply Hf. by right.
    + intros y z a b Hy Hz. apply Hcross; by right.
Qed.

Lemma candidates_of_sorted n ch : StronglySorted lex_lt (candidates_of n ch).
Proof.
  unfold candidates_of.
  apply StronglySorted_flat_map; [apply StronglySorted_range| |].
  - intros i0 _.
    apply StronglySorted_flat_map; [apply StronglySorted_range| |].
    + intros i1 _. unfold first_pair.
      destruct (balanced ch i0 i1); [|constructor]. unfold second_pairs.
      apply StronglySorted_flat_map; [apply StronglySorted_range| |].
      * intros i2 _.
        apply StronglySorted_flat_map; [apply StronglySorted_range| |].
        -- intros i3 _. unfold second_pair.
           destruct (len_set4 i0 i1 i2 i3 <? 4); [constructor|].
           destruct (balanced ch i2 i3); repeat constructor.
        -- intros x y a b _ _ Hxy (-> & _)%elem_of_second_pair (-> & _)%elem_of_second_pair.
           cbn. lia.
      * intros x y a b _ _ Hxy (x3 & _ & Ha)%elem_of_flat_map (y3 & _ & Hb)%elem_of_flat_map.
        apply elem_of_second_pair in Ha as (-> & _), Hb as (-> & _). cbn. lia.
    + intros x y a b _ _ Hxy (a2 & a3 & ->)%elem_of_first_pair (b2 & b3 & ->)%elem_of_first_pair.
      cbn. lia.
  - intros x y a b _ _ Hxy (x1 & _ & Ha)%elem_of_flat_map (y1 & _ & Hb)%elem_of_flat_map.
    apply elem_of_first_pair in Ha as (a2 & a3 & ->), Hb as (b2 & b3 & ->). cbn. lia.
Qed.

Lemma lex_lt_irrefl c : ¬ lex_lt c c.
Proof. destruct c as [[[a0 a1] a2] a3]. cbn. lia. Qed.

Lemma StronglySorted_NoDup {B} (R : relation B) (l : list B) :
  (∀ x, ¬ R x x) → StronglySorted R l → NoDup l.
Proof.
  intros Hirr. induction 1 as [|x l Hl IH Hx]; constructor; [|done].
  rewrite Forall_forall in Hx. intros Hin. by apply (Hirr x), Hx.
Qed.

Lemma candidates_of_NoDup n ch : NoDup (candidates_of n ch).
Proof.
  apply (StronglySorted_NoDup lex_lt); [apply lex_lt_irrefl|apply candidates_of_sorted].
Qed.

(** ** Number of iterations *)

Lemma length_range a b : length (range a b) = b - a.
Proof. unfold range. apply length_seq. Qed.

Lemma sum_list_with_bound {A} (g : A → nat) (l : list A) (k : nat) :
  (∀ x, x ∈ l → g x ≤ k) → sum_list_with g l ≤ length l * k.
Proof.
  induction l as [|x l IH]; intros Hg; cbn [sum_list_with length]; [lia|].
  assert (g x ≤ k) by (apply Hg; left).
  assert (sum_list_with g l ≤ length l * k) by (apply IH; intros y Hy; apply Hg; by right).
  lia.
Qed.

Lemma cost_second_bound n : cost_second n ≤ n * n.
Proof.
  unfold cost_second.
  etransitivity; [apply (sum_list_with_bound _ _ n)|by rewrite length_range, Nat.sub_0_r].
  intros i2 Hi2%elem_of_range.
  pose proof (sum_list_with_bound (λ _ : nat, 1) (range (i2 + 1) n) 1 (λ _ _, le_n 1)) as H.
  rewrite length_range in H. lia.
Qed.

Lemma cost_of_bound n ch : cost_of n ch ≤ n ^ 4.
Proof.
  unfold cost_of.
  etransitivity; [apply (sum_list_with_bound _ _ (S ((n - 1) * S (n * n))))|].
  - intros i0 Hi0%elem_of_range. apply le_n_S.
    etransitivity; [apply (sum_list_with_bound _ _ (S (n * n)))|].
    + intros i1 _. apply le_n_S. unfold cost_first.
      destruct (balanced ch i0 i1); [apply cost_second_bound|lia].
    + rewrite length_range. apply Nat.mul_le_mono_r. lia.
  - rewrite length_range, Nat.sub_0_r. destruct n as [|m]; [done|].
    replace (S m - 1) with m by lia. cbn [Nat.pow]. nia.
Qed.

(** ** [argmin] and the selection *)

Lemma Qlt_bool_true x y : Qlt_bool x y = true → (x <= y)%Q.
Proof.
  unfold Qlt_bool. intros H%negb_true_iff.
  apply Qlt_le_weak, Qnot_le_lt. intros Hle%Qle_bool_iff. congruence.
Qed.

Lemma Qlt_bool_false x y : Qlt_bool x y = false → (y <= x)%Q.
Proof. unfold Qlt_bool. intros H%negb_false_iff. by apply Qle_bool_iff. Qed.

Lemma argmin_from_spec l : ∀ best vbest k,
  best < k →
  ∃ v, ((argmin_from best vbest k l = best ∧ v = vbest)
        ∨ (k ≤ argmin_from best vbest k l ∧ l !! (argmin_from best vbest k l - k) = Some v))
       ∧ (v <= vbest)%Q ∧ Forall (λ x, (v <= x)%Q) l.
Proof.
  induction l as [|x l IH]; intros best vbest k Hk; cbn [argmin_from].
  - exists vbest. split; [by left|]. split; [apply Qle_refl|constructor].
  - destruct (Qlt_bool x vbest) eqn:Hlt.
    + apply Qlt_bool_true in Hlt.
      destruct (IH k x (S k)) as (v & Hr & Hv & Hall); [lia|].
      exists v. split; [right|split; [by apply Qle_trans with x|by constructor]].
      destruct Hr as [[-> ->]|[Hge Hlook]].
      * split; [done|]. by rewrite Nat.sub_diag.
      * split; [lia|].
        replace (argmin_from k x (S k) l - k) with (S (argmin_from k x (S k) l - S k)) by lia.
        done.
    + apply Qlt_bool_false in Hlt.
      destruct (IH best vbest (S k)) as (v & Hr & Hv & Hall); [lia|].
      exists v. split; [|split; [done|constructor; [by apply Qle_trans with vbest|done]]].
      destruct Hr as [[Hr ->]|[Hge Hlook]]; [by left|right].
      split; [lia|].
      replace (argmin_from best vbest (S k) l - k)
        with (S (argmin_from best vbest (S k) l - S k)) by lia.
      done.
Qed.

Lemma argmin_spec l :
  l ≠ [] → ∃ r v, argmin l = Some r ∧ l !! r = Some v ∧ Forall (λ x, (v <= x)%Q) l.
Proof.
  destruct l as [|x l]; [done|intros _]. cbn [argmin].
  destruct (argmin_from_spec l 0 x 1) as (v & Hr & Hv & Hall); [lia|].
  exists (argmin_from 0 x 1 l), v. split; [done|]. split; [|by constructor].
  destruct Hr as [[-> ->]|[Hge Hlook]]; [done|].
  replace (argmin_from 0 x 1 l) with (S (argmin_from 0 x 1 l - 1)) by lia. done.
Qed.

Section Selector.
Context {P4 : Type} (p4_add : P4 → P4 → P4) (zdist : P4 → Q).
Implicit Types (leptons : list (Lepton P4)) (fourmuon : list (FourMuon P4)).

Lemma select_event_nonempty fourmuon :
  fourmuon ≠ [] →
  ∃ r a, bestz1 zdist fourmuon = [r] ∧ fourmuon !! r = Some a
         ∧ select_event zdist fourmuon = Some [a]
         ∧ ∀ a', a' ∈ fourmuon → (z1dist zdist a <= z1dist zdist a')%Q.
Proof.
  intros Hne.
  destruct (argmin_spec (map (z1dist zdist) fourmuon)) as (r & v & Hr & Hv & Hall).
  { by destruct fourmuon. }
  change (map (z1dist zdist) fourmuon) with (z1dist zdist <$> fourmuon) in Hv, Hall.
  rewrite list_lookup_fmap in Hv.
  destruct (fourmuon !! r) as [a|] eqn:Ha; [|done]. injection Hv as <-.
  exists r, a. unfold select_event, bestz1. rewrite Hr. cbn [singletons].
  split; [done|]. split; [done|]. split.
  - cbn. by rewrite Ha.
  - intros a' Ha'. rewrite Forall_fmap, Forall_forall in Hall. by apply Hall.
Qed.

Lemma zip_fourmuon_is_Some leptons n ch c :
  n = length leptons → c ∈ candidates_of n ch → is_Some (zip_fourmuon p4_add leptons c).
Proof.
  intros -> Hc. destruct c as [[[i0 i1] i2] i3].
  apply elem_of_candidates_of in Hc as (Hfst & Hsnd & _).
  destruct (lookup_lt_is_Some_2 leptons i0) as [l0 E0]; [lia|].
  destruct (lookup_lt_is_Some_2 leptons i1) as [l1 E1]; [lia|].
  destruct (lookup_lt_is_Some_2 leptons i2) as [l2 E2]; [lia|].
  destruct (lookup_lt_is_Some_2 leptons i3) as [l3 E3]; [lia|].
  cbn. rewrite E0, E1, E2, E3. cbn. eauto.
Qed.

Lemma zip_fourmuon_pair_swap leptons c a :
  zip_fourmuon p4_add leptons c = Some a →
  zip_fourmuon p4_add leptons (pair_swap c) = Some (mkFourMuon (z2 a) (z1 a)).
Proof.
  destruct c as [[[i0 i1] i2] i3]. cbn.
  destruct (leptons !! i0), (leptons !! i1), (leptons !! i2), (leptons !! i3);
    cbn; try done.
  by intros [= <-].
Qed.

End Selector.

(** ** Charges of the paired leptons *)

Lemma balanced_charges {P4} (leptons : list (Lepton P4)) i j :
  balanced (charges leptons) i j = true
  ↔ ∃ li lj, leptons !! i = Some li ∧ leptons !! j = Some lj
             ∧ (charge li + charge lj = 0)%Z.
Proof.
  unfold balanced, charges. change (map charge leptons) with (charge <$> leptons).
  rewrite !list_lookup_fmap.
  destruct (leptons !! i) as [li|], (leptons !! j) as [lj|]; cbn.
  - rewrite Z.eqb_eq. split; [eauto|]. by intros (? & ? & [= <-] & [= <-] & ?).
  - split; [done|]. by intros (? & ? & _ & ? & _).
  - split; [done|]. by intros (? & ? & ? & _).
  - split; [done|]. by intros (? & ? & ? & _).
Qed.

Lemma candidates_of_pair_swap n ch c :
  c ∈ candidates_of n ch → pair_swap c ∈ candidates_of n ch.
Proof.
  destruct c as [[[i0 i1] i2] i3]. cbn [pair_swap].
  rewrite !elem_of_candidates_of, !NoDup4_iff. naive_solver.
Qed.

Lemma candidates_of_nil n ch :
  (∀ c, c ∉ candidates_of n ch) → candidates_of n ch = [].
Proof.
  destruct (candidates_of n ch) as [|c cs]; [done|].
  intros H. destruct (H c). left.
Qed.

(** ** The claims about the finder *)

(** C1: every candidate [(i0, i1, i2, i3)] that [find_4lep] returns for an
    event pairs leptons of opposite charge, [charge(i0) + charge(i1) = 0]
    and [charge(i2) + charge(i3) = 0]; its four indices are pairwise
    distinct and lie in [[0, N)]; and [i0 < i1], [i2 < i3]. *)
Theorem find_4lep_candidate_valid {P4} (leptons : list (Lepton P4)) cs i0 i1 i2 i3 :
  findCandidates leptons = Some cs →
  (i0, i1, i2, i3) ∈ cs →
  (∃ l0 l1 l2 l3,
      leptons !! i0 = Some l0 ∧ leptons !! i1 = Some l1
      ∧ leptons !! i2 = Some l2 ∧ leptons !! i3 = Some l3
      ∧ (charge l0 + charge l1 = 0)%Z ∧ (charge l2 + charge l3 = 0)%Z)
  ∧ NoDup [i0; i1; i2; i3]
  ∧ (i0 < length leptons ∧ i1 < length leptons
     ∧ i2 < length leptons ∧ i3 < length leptons)
  ∧ i0 < i1 ∧ i2 < i3.
Proof.
  rewrite findCandidates_eq. intros [= <-].
  intros (Hfst & Hsnd & Hnd & Hb01 & Hb23)%elem_of_candidates_of.
  apply balanced_charges in Hb01 as (l0 & l1 & E0 & E1 & Hc01).
  apply balanced_charges in Hb23 as (l2 & l3 & E2 & E3 & Hc23).
  split; [by exists l0, l1, l2, l3|]. split; [done|]. lia.
Qed.

Lemma find_4lep_candidate_valid_witness :
  (∃ l0 l1 l2 l3,
      map lepton_of_charge [1; -1; 1; -1]%Z !! 0 = Some l0
      ∧ map lepton_of_charge [1; -1; 1; -1]%Z !! 3 = Some l1
      ∧ map lepton_of_charge [1; -1; 1; -1]%Z !! 1 = Some l2
      ∧ map lepton_of_charge [1; -1; 1; -1]%Z !! 2 = Some l3
      ∧ (charge l0 + charge l1 = 0)%Z ∧ (charge l2 + charge l3 = 0)%Z)
  ∧ NoDup [0; 3; 1; 2]
  ∧ (0 < 4 ∧ 3 < 4 ∧ 1 < 4 ∧ 2 < 4)
  ∧ 0 < 3 ∧ 1 < 2.
Proof.
  apply (find_4lep_candidate_valid
           (map lepton_of_charge [1; -1; 1; -1]%Z)
           [(0, 1, 2, 3); (0, 3, 1, 2); (1, 2, 0, 3); (2, 3, 0, 1)] 0 3 1 2).
  - vm_compute. reflexivity.
  - right. left.
Defined.

(** C3, as the code has it: for four leptons of charges [+1, -1, +1, -1]
    the finder returns four candidates, each of the two splittings in both
    orders of its pairs: (0,1,2,3), (0,3,1,2), (1,2,0,3), (2,3,0,1). *)
Theorem find_4lep_alternating {P4} (p0 p1 p2 p3 : P4) :
  findCandidates [mkLepton 1 p0; mkLepton (-1) p1; mkLepton 1 p2; mkLepton (-1) p3]
  = Some [(0, 1, 2, 3); (0, 3, 1, 2); (1, 2, 0, 3); (2, 3, 0, 1)].
Proof. rewrite findCandidates_eq. cbn [charges map charge length]. by vm_compute. Qed.

(** C3, as stated, fails: the candidates of [+1, -1, +1, -1] are not just
    (0,1,2,3) and (0,3,1,2). *)
Lemma find_4lep_alternating_not_two :
  findCandidates (map lepton_of_charge [1; -1; 1; -1]%Z)
  ≠ Some [(0, 1, 2, 3); (0, 3, 1, 2)].
Proof. vm_compute. discriminate. Qed.

(** C4: an event of fewer than four leptons, or one in which no two
    leptons have charges that sum to zero, has no candidate. *)
Theorem find_4lep_empty {P4} (leptons : list (Lepton P4)) :
  (length leptons < 4
   ∨ (∀ i j li lj, i ≠ j → leptons !! i = Some li → leptons !! j = Some lj →
                   (charge li + charge lj ≠ 0)%Z)) →
  findCandidates leptons = Some [].
Proof.
  intros H. rewrite findCandidates_eq. f_equal. apply candidates_of_nil.
  intros [[[i0 i1] i2] i3] (Hfst & Hsnd & Hnd & Hb01 & Hb23)%elem_of_candidates_of.
  destruct H as [Hlen|Hcharge].
  - apply NoDup4_iff in Hnd. lia.
  - apply balanced_charges in Hb01 as (l0 & l1 & E0 & E1 & Hc01).
    apply (Hcharge i0 i1 l0 l1); [lia|done..].
Qed.

Lemma find_4lep_empty_witness :
  findCandidates (map lepton_of_charge [1; 1; 1; 1]%Z) = Some [].
Proof.
  apply (find_4lep_empty (map lepton_of_charge [1; 1; 1; 1]%Z)).
  right. intros i j li lj _ Hi Hj.
  assert (Hall : ∀ k l, map lepton_of_charge [1; 1; 1; 1]%Z !! k = Some l → charge l = 1%Z).
  { intros [|[|[|[|k]]]] l [= <-]; reflexivity. }
  rewrite (Hall i li Hi), (Hall j lj Hj). discriminate.
Defined.

(** C8: the finder is total.  On every event, of any length and with any
    integer charges, it returns a list of candidates without raising, after
    at most [N^4] loop iterations. *)
Theorem find_4lep_total {P4} (leptons : list (Lepton P4)) :
  ∃ cs n, findCandidates leptons = Some cs
          ∧ findIterations leptons = Some n
          ∧ n ≤ length leptons ^ 4.
Proof.
  exists (candidates_of (length leptons) (charges leptons)),
         (cost_of (length leptons) (charges leptons)).
  split; [apply findCandidates_eq|]. split; [apply findIterations_eq|].
  apply cost_of_bound.
Qed.

(** C9: the candidates of an event are closed under exchanging the two
    pairs: with [(i0, i1, i2, i3)] the finder also returns
    [(i2, i3, i0, i1)]. *)
Theorem find_4lep_pair_swap {P4} (leptons : list (Lepton P4)) cs i0 i1 i2 i3 :
  findCandidates leptons = Some cs →
  (i0, i1, i2, i3) ∈ cs →
  (i2, i3, i0, i1) ∈ cs.
Proof.
  rewrite findCandidates_eq. intros [= <-] Hc.
  by apply candidates_of_pair_swap in Hc.
Qed.

Lemma find_4lep_pair_swap_witness :
  (1, 4, 2, 3) ∈ [(0, 1, 2, 3); (0, 1, 3, 4); (0, 3, 1, 2); (0, 3, 1, 4);
                  (1, 2, 0, 3); (1, 2, 3, 4); (1, 4, 0, 3); (1, 4, 2, 3);
                  (2, 3, 0, 1); (2, 3, 1, 4); (3, 4, 0, 1); (3, 4, 1, 2)].
Proof.
  apply (find_4lep_pair_swap (map lepton_of_charge [1; -1; 1; -1; 1]%Z) _ 2 3 1 4).
  - vm_compute. reflexivity.
  - do 9 right. left.
Defined.

(** ** Splittings and duplicates *)

Lemma pair_set_eq (a b c d : nat) :
  a < b → c < d → ({[ a; b ]} : gset nat) = {[ c; d ]} → a = c ∧ b = d.
Proof.
  intros Hab Hcd Heq.
  assert (Ha : a ∈ ({[ c; d ]} : gset nat)) by (rewrite <- Heq; set_solver).
  assert (Hb : b ∈ ({[ c; d ]} : gset nat)) by (rewrite <- Heq; set_solver).
  apply elem_of_union in Ha, Hb. rewrite !elem_of_singleton in Ha, Hb. lia.
Qed.

Lemma split_of_pair_swap c : split_of (pair_swap c) = split_of c.
Proof. destruct c as [[[i0 i1] i2] i3]. cbn. set_solver. Qed.

Lemma split_of_eq n ch c d :
  c ∈ candidates_of n ch → d ∈ candidates_of n ch →
  split_of d = split_of c → d = c ∨ d = pair_swap c.
Proof.
  destruct c as [[[i0 i1] i2] i3], d as [[[j0 j1] j2] j3].
  intros (? & ? & Hc & _)%elem_of_candidates_of (? & ? & Hd & _)%elem_of_candidates_of Heq.
  apply NoDup4_iff in Hc, Hd. cbn [split_of pair_swap] in *.
  assert (H01 : ({[ j0; j1 ]} : gset nat) ∈ ({[ {[ i0; i1 ]}; {[ i2; i3 ]} ]} : gset (gset nat)))
    by (rewrite <- Heq; set_solver).
  assert (H23 : ({[ j2; j3 ]} : gset nat) ∈ ({[ {[ i0; i1 ]}; {[ i2; i3 ]} ]} : gset (gset nat)))
    by (rewrite <- Heq; set_solver).
  apply elem_of_union in H01, H23. rewrite !elem_of_singleton in H01, H23.
  destruct H01 as [H01|H01], H23 as [H23|H23];
    apply pair_set_eq in H01 as [? ?]; try lia;
    apply pair_set_eq in H23 as [? ?]; try lia; subst; auto; lia.
Qed.

Lemma pair_swap_ne n ch c : c ∈ candidates_of n ch → pair_swap c ≠ c.
Proof.
  destruct c as [[[i0 i1] i2] i3].
  intros (_ & _ & Hc & _)%elem_of_candidates_of [= -> ->].
  apply NoDup4_iff in Hc. lia.
Qed.

Lemma filter_two {A} `{EqDecision A} (P : A → Prop) `{∀ x, Decision (P x)}
    (l : list A) (a b : A) :
  NoDup l → a ∈ l → b ∈ l → a ≠ b →
  (∀ x, x ∈ l → P x ↔ x = a ∨ x = b) →
  length (filter P l) = 2.
Proof.
  intros Hnd Ha Hb Hab HP.
  assert (Hperm : filter P l ≡ₚ [a; b]).
  { apply NoDup_Permutation.
    - by apply NoDup_filter.
    - apply NoDup_cons. split; [set_solver|apply NoDup_singleton].
    - intros x. rewrite list_elem_of_filter. set_solver. }
  by rewrite Hperm.
Qed.

(** C5, as the code has it: no tuple is returned twice, and every
    splitting of four indices into two pairs is returned exactly twice,
    as [(i0, i1, i2, i3)] and as [(i2, i3, i0, i1)]. *)
Theorem find_4lep_splits_twice {P4} (leptons : list (Lepton P4)) cs :
  findCandidates leptons = Some cs →
  NoDup cs
  ∧ (∀ c, c ∈ cs → length (filter (λ d, split_of d = split_of c) cs) = 2)
  ∧ (∀ c d, c ∈ cs → d ∈ cs → split_of d = split_of c → d = c ∨ d = pair_swap c).
Proof.
  rewrite findCandidates_eq. intros [= <-].
  split; [apply candidates_of_NoDup|]. split.
  - intros c Hc. apply (filter_two _ _ c (pair_swap c)).
    + apply candidates_of_NoDup.
    + done.
    + by apply candidates_of_pair_swap.
    + intros Heq. by apply (pair_swap_ne _ _ c Hc).
    + intros d Hd. split; [by apply split_of_eq with (length leptons) (charges leptons)|].
      intros [->| ->]; [done|apply split_of_pair_swap].
  - intros c d. apply split_of_eq.
Qed.

Lemma find_4lep_splits_twice_witness :
  NoDup [(0, 1, 2, 3); (0, 3, 1, 2); (1, 2, 0, 3); (2, 3, 0, 1)]
  ∧ (∀ c, c ∈ [(0, 1, 2, 3); (0, 3, 1, 2); (1, 2, 0, 3); (2, 3, 0, 1)] →
       length (filter (λ d, split_of d = split_of c)
                      [(0, 1, 2, 3); (0, 3, 1, 2); (1, 2, 0, 3); (2, 3, 0, 1)]) = 2)
  ∧ (∀ c d, c ∈ [(0, 1, 2, 3); (0, 3, 1, 2); (1, 2, 0, 3); (2, 3, 0, 1)] →
       d ∈ [(0, 1, 2, 3); (0, 3, 1, 2); (1, 2, 0, 3); (2, 3, 0, 1)] →
       split_of d = split_of c → d = c ∨ d = pair_swap c).
Proof.
  apply (find_4lep_splits_twice (map lepton_of_charge [1; -1; 1; -1]%Z)).
  vm_compute. reflexivity.
Defined.

(** C5, as stated, fails: for charges [+1, -1, +1, -1] the candidates at
    positions 0 and 3 are (0,1,2,3) and (2,3,0,1), the same four indices
    split the same way into the pairs {0,1} and {2,3}. *)
Lemma find_4lep_duplicate_split :
  ¬ (∀ cs, findCandidates (map lepton_of_charge [1; -1; 1; -1]%Z) = Some cs →
       NoDup cs
       ∧ ∀ j k c d, j ≠ k → cs !! j = Some c → cs !! k = Some d →
                    split_of c ≠ split_of d).
Proof.
  intros H.
  destruct (H [(0, 1, 2, 3); (0, 3, 1, 2); (1, 2, 0, 3); (2, 3, 0, 1)]) as [_ Hsplit].
  { vm_compute. reflexivity. }
  apply (Hsplit 0 3 (0, 1, 2, 3) (2, 3, 0, 1)); [lia|reflexivity|reflexivity|].
  apply (split_of_pair_swap (2, 3, 0, 1)).
Qed.

(** C6: the finder is deterministic and touches nothing but the builder
    it is given.  Whatever lists the builder already holds and whatever
    ran before, an invocation on the same events appends the same lists
    in the same order, so that two invocations in a row leave the output
    twice; and the candidates of every event come in lexicographic order
    of [(i0, i1, i2, i3)]. *)
Theorem find_4lep_deterministic_sorted {P4} (events : list (list (Lepton P4))) :
  ∃ out,
    find_4lep_snapshot events = Some out
    ∧ (∀ done n, ∃ k,
         find_4lep events (mkSt (mkBuilder done None) n)
         = Some (tt, mkSt (mkBuilder (done ++ out) None) (n + k)))
    ∧ (∃ s, (find_4lep events ;; find_4lep events) (mkSt new_builder 0) = Some (tt, s)
            ∧ snapshot (builder s) = out ++ out)
    ∧ Forall (StronglySorted lex_lt) out.
Proof.
  exists (map (λ ev, candidates_of (length ev) (charges ev)) events).
  split; [apply find_4lep_snapshot_eq|]. split; [|split].
  - intros done n. eexists. apply find_4lep_steps.
  - eexists. split.
    + erewrite Run_bind_eq by apply find_4lep_steps. apply find_4lep_steps.
    + unfold snapshot. cbn. by rewrite app_nil_r.
  - apply Forall_forall. intros cs Hcs.
    change (cs ∈ (λ ev, candidates_of (length ev) (charges ev)) <$> events) in Hcs.
    apply list_elem_of_fmap in Hcs as (ev & -> & _). apply candidates_of_sorted.
Qed.

(** ** The claims about the selection *)

Lemma zip_select_spec {P4} (p4_add : P4 → P4 → P4) (zdist : P4 → Q)
    (leptons : list (Lepton P4)) :
  candidates_of (length leptons) (charges leptons) ≠ [] →
  ∃ fourmuon a,
    mapM (zip_fourmuon p4_add leptons) (candidates_of (length leptons) (charges leptons))
    = Some fourmuon
    ∧ select_event zdist fourmuon = Some [a]
    ∧ a ∈ fourmuon
    ∧ (∀ a', a' ∈ fourmuon → (z1dist zdist a <= z1dist zdist a')%Q)
    ∧ (z1dist zdist a <= z2dist zdist a)%Q.
Proof.
  intros Hne.
  set (cs := candidates_of (length leptons) (charges leptons)) in *.
  destruct (mapM (zip_fourmuon p4_add leptons) cs) as [fourmuon|] eqn:Hzip; last first.
  { apply mapM_None in Hzip. apply Exists_exists in Hzip as (c & Hc & Hnone).
    destruct (zip_fourmuon_is_Some p4_add leptons _ (charges leptons) c eq_refl Hc) as [a Ha].
    congruence. }
  apply mapM_Some in Hzip.
  assert (Hfm : fourmuon ≠ []).
  { intros ->. apply Forall2_nil_inv_r in Hzip. done. }
  destruct (select_event_nonempty zdist fourmuon Hfm) as (r & a & _ & Hr & Hsel & Hmin).
  exists fourmuon, a. split; [done|]. split; [done|].
  split; [by eapply list_elem_of_lookup_2|]. split; [done|].
  destruct (Forall2_lookup_r _ _ _ _ _ Hzip Hr) as (c & Hc & Hca).
  apply list_elem_of_lookup_2, candidates_of_pair_swap in Hc.
  apply list_elem_of_lookup_1 in Hc as [k Hk].
  destruct (Forall2_lookup_l _ _ _ _ _ Hzip Hk) as (a' & Ha' & Hca').
  rewrite (zip_fourmuon_pair_swap p4_add leptons c a Hca) in Hca'. injection Hca' as <-.
  apply list_elem_of_lookup_2 in Ha'. apply (Hmin _ Ha').
Qed.

Lemma zip_fourmuon_inv {P4} (p4_add : P4 → P4 → P4) (leptons : list (Lepton P4))
    i0 i1 i2 i3 a :
  zip_fourmuon p4_add leptons (i0, i1, i2, i3) = Some a →
  ∃ l0 l1 l2 l3,
    leptons !! i0 = Some l0 ∧ leptons !! i1 = Some l1
    ∧ leptons !! i2 = Some l2 ∧ leptons !! i3 = Some l3
    ∧ a = mkFourMuon (mkZCand l0 l1 (p4_add (p4 l0) (p4 l1)))
                     (mkZCand l2 l3 (p4_add (p4 l2) (p4 l3))).
Proof.
  cbn. destruct (leptons !! i0) as [l0|], (leptons !! i1) as [l1|],
                (leptons !! i2) as [l2|], (leptons !! i3) as [l3|]; cbn; try done.
  intros [= <-]. by exists l0, l1, l2, l3.
Qed.

Lemma zip_select_best {P4} (p4_add : P4 → P4 → P4) (dist : P4 → Q)
    (leptons : list (Lepton P4)) :
  candidates_of (length leptons) (charges leptons) ≠ [] →
  ∃ fourmuon a,
    mapM (zip_fourmuon p4_add leptons) (candidates_of (length leptons) (charges leptons))
    = Some fourmuon
    ∧ select_event dist fourmuon = Some [a]
    ∧ best_pairing p4_add dist leptons (candidates_of (length leptons) (charges leptons)) a.
Proof.
  intros Hne.
  destruct (zip_select_spec p4_add dist leptons Hne)
    as (fourmuon & a & Hzip & Hsel & Ha & Hmin & Hcloser).
  exists fourmuon, a. split; [done|]. split; [done|].
  apply mapM_Some in Hzip.
  apply list_elem_of_lookup_1 in Ha as [r Hr].
  destruct (Forall2_lookup_r _ _ _ _ _ Hzip Hr) as ([[[i0 i1] i2] i3] & Hc & Hca).
  destruct (zip_fourmuon_inv _ _ _ _ _ _ _ Hca) as (l0 & l1 & l2 & l3 & E0 & E1 & E2 & E3 & ->).
  exists i0, i1, i2, i3, l0, l1, l2, l3.
  split; [by eapply list_elem_of_lookup_2|]. do 5 (split; [done|]).
  split; [|exact Hcloser].
  intros j0 j1 j2 j3 m0 m1 [k Hk]%list_elem_of_lookup_1 F0 F1.
  destruct (Forall2_lookup_l _ _ _ _ _ Hzip Hk) as (a' & Ha' & Hca').
  destruct (zip_fourmuon_inv _ _ _ _ _ _ _ Hca') as (m0' & m1' & m2 & m3 & G0 & G1 & _ & _ & ->).
  rewrite F0 in G0. rewrite F1 in G1. injection G0 as <-. injection G1 as <-.
  apply (Hmin _ (list_elem_of_lookup_2 _ _ _ Ha')).
Qed.

(** C2: for an event with at least one candidate the selection returns
    exactly one assignment.  It is built from one of the candidates
    [(i0, i1, i2, i3)] of the event: its Z1 holds the leptons [i0] and
    [i1] and the sum of their momenta, its Z2 the leptons [i2] and [i3]
    and theirs.  The distance [abs(mass - 91.1876)] of its Z1 is the least
    among the first pairs of all candidates of the event, and at most the
    distance of its own Z2.  [rnd] is the rounding of the floating-point
    subtraction; the identity gives the exact distances. *)
Theorem select_best_z1 {P4} (p4_add : P4 → P4 → P4) (p4_mass : P4 → Q) (rnd : Q → Q)
    (leptons : list (Lepton P4)) cs :
  findCandidates leptons = Some cs →
  cs ≠ [] →
  ∃ fourmuon a i0 i1 i2 i3 l0 l1 l2 l3,
    mapM (zip_fourmuon p4_add leptons) cs = Some fourmuon
    ∧ select_event (z_mass_dist p4_mass rnd) fourmuon = Some [a]
    ∧ (i0, i1, i2, i3) ∈ cs
    ∧ leptons !! i0 = Some l0 ∧ leptons !! i1 = Some l1
    ∧ leptons !! i2 = Some l2 ∧ leptons !! i3 = Some l3
    ∧ a = mkFourMuon (mkZCand l0 l1 (p4_add (p4 l0) (p4 l1)))
                     (mkZCand l2 l3 (p4_add (p4 l2) (p4 l3)))
    ∧ (∀ j0 j1 j2 j3 m0 m1,
         (j0, j1, j2, j3) ∈ cs → leptons !! j0 = Some m0 → leptons !! j1 = Some m1 →
         (rnd (Qabs (p4_mass (p4_add (p4 l0) (p4 l1)) - 91.1876))
          <= rnd (Qabs (p4_mass (p4_add (p4 m0) (p4 m1)) - 91.1876)))%Q)
    ∧ (rnd (Qabs (p4_mass (p4_add (p4 l0) (p4 l1)) - 91.1876))
       <= rnd (Qabs (p4_mass (p4_add (p4 l2) (p4 l3)) - 91.1876)))%Q.
Proof.
  rewrite findCandidates_eq. intros [= <-] Hne.
  destruct (zip_select_best p4_add (z_mass_dist p4_mass rnd) leptons Hne)
    as (fourmuon & a & Hzip & Hsel & i0 & i1 & i2 & i3 & l0 & l1 & l2 & l3 & Hbest).
  exists fourmuon, a, i0, i1, i2, i3, l0, l1, l2, l3.
  split; [done|]. split; [done|]. exact Hbest.
Qed.

Lemma select_best_z1_witness :
  ∃ fourmuon a i0 i1 i2 i3 l0 l1 l2 l3,
    mapM (zip_fourmuon Qplus
            [lepton_of_mass 1 30; lepton_of_mass (-1) 40;
             lepton_of_mass 1 50; lepton_of_mass (-1) 61])
         [(0, 1, 2, 3); (0, 3, 1, 2); (1, 2, 0, 3); (2, 3, 0, 1)] = Some fourmuon
    ∧ select_event (z_mass_dist (λ m : Q, m) (λ d : Q, d)) fourmuon = Some [a]
    ∧ (i0, i1, i2, i3) ∈ [(0, 1, 2, 3); (0, 3, 1, 2); (1, 2, 0, 3); (2, 3, 0, 1)]
    ∧ [lepton_of_mass 1 30; lepton_of_mass (-1) 40;
       lepton_of_mass 1 50; lepton_of_mass (-1) 61] !! i0 = Some l0
    ∧ [lepton_of_mass 1 30; lepton_of_mass (-1) 40;
       lepton_of_mass 1 50; lepton_of_mass (-1) 61] !! i1 = Some l1
    ∧ [lepton_of_mass 1 30; lepton_of_mass (-1) 40;
       lepton_of_mass 1 50; lepton_of_mass (-1) 61] !! i2 = Some l2
    ∧ [lepton_of_mass 1 30; lepton_of_mass (-1) 40;
       lepton_of_mass 1 50; lepton_of_mass (-1) 61] !! i3 = Some l3
    ∧ a = mkFourMuon (mkZCand l0 l1 (Qplus (p4 l0) (p4 l1)))
                     (mkZCand l2 l3 (Qplus (p4 l2) (p4 l3)))
    ∧ (∀ j0 j1 j2 j3 m0 m1,
         (j0, j1, j2, j3) ∈ [(0, 1, 2, 3); (0, 3, 1, 2); (1, 2, 0, 3); (2, 3, 0, 1)] →
         [lepton_of_mass 1 30; lepton_of_mass (-1) 40;
          lepton_of_mass 1 50; lepton_of_mass (-1) 61] !! j0 = Some m0 →
         [lepton_of_mass 1 30; lepton_of_mass (-1) 40;
          lepton_of_mass 1 50; lepton_of_mass (-1) 61] !! j1 = Some m1 →
         (Qabs (Qplus (p4 l0) (p4 l1) - 91.1876)
          <= Qabs (Qplus (p4 m0) (p4 m1) - 91.1876))%Q)
    ∧ (Qabs (Qplus (p4 l0) (p4 l1) - 91.1876)
       <= Qabs (Qplus (p4 l2) (p4 l3) - 91.1876))%Q.
Proof.
  apply (select_best_z1 Qplus (λ m : Q, m) (λ d : Q, d)
           [lepton_of_mass 1 30; lepton_of_mass (-1) 40;
            lepton_of_mass 1 50; lepton_of_mass (-1) 61]).
  - vm_compute. reflexivity.
  - discriminate.
Defined.

(** The selected pair of the event of the witness: leptons 0 and 3, of
    masses 30 and 61, whose sum 91 is the closest to 91.1876. *)
Example select_best_z1_pairs :
  select_event (z_mass_dist (λ m : Q, m) (λ d : Q, d))
    [mkFourMuon (mkZCand (lepton_of_mass 1 30) (lepton_of_mass (-1) 40) 70%Q)
                (mkZCand (lepton_of_mass 1 50) (lepton_of_mass (-1) 61) 111%Q);
     mkFourMuon (mkZCand (lepton_of_mass 1 30) (lepton_of_mass (-1) 61) 91%Q)
                (mkZCand (lepton_of_mass (-1) 40) (lepton_of_mass 1 50) 90%Q);
     mkFourMuon (mkZCand (lepton_of_mass (-1) 40) (lepton_of_mass 1 50) 90%Q)
                (mkZCand (lepton_of_mass 1 30) (lepton_of_mass (-1) 61) 91%Q);
     mkFourMuon (mkZCand (lepton_of_mass 1 50) (lepton_of_mass (-1) 61) 111%Q)
                (mkZCand (lepton_of_mass 1 30) (lepton_of_mass (-1) 40) 70%Q)]
  = Some [mkFourMuon (mkZCand (lepton_of_mass 1 30) (lepton_of_mass (-1) 61) 91%Q)
                     (mkZCand (lepton_of_mass (-1) 40) (lepton_of_mass 1 50) 90%Q)].
Proof. by vm_compute. Qed.

(** What the selection does with one event, whatever its candidates. *)
Lemma event_select {P4} (p4_add : P4 → P4 → P4) (dist : P4 → Q) (leptons : list (Lepton P4)) :
  ∃ fourmuon,
    mapM (zip_fourmuon p4_add leptons) (candidates_of (length leptons) (charges leptons))
    = Some fourmuon
    ∧ select_event dist fourmuon = Some (event_assignment p4_add dist leptons)
    ∧ (candidates_of (length leptons) (charges leptons) = [] →
       event_assignment p4_add dist leptons = [])
    ∧ (candidates_of (length leptons) (charges leptons) ≠ [] →
       ∃ a, event_assignment p4_add dist leptons = [a]
            ∧ best_pairing p4_add dist leptons
                (candidates_of (length leptons) (charges leptons)) a).
Proof.
  unfold event_assignment.
  destruct (candidates_of (length leptons) (charges leptons)) as [|c cs] eqn:E.
  - exists []. by repeat split.
  - destruct (zip_select_best p4_add dist leptons) as (fourmuon & a & Hzip & Hsel & Hbest);
      [by rewrite E|].
    rewrite E in Hzip, Hbest. exists fourmuon. rewrite Hzip. cbn [mbind option_bind].
    rewrite Hsel. cbn [default]. split; [done|]. split; [done|]. split; [done|].
    intros _. by exists a.
Qed.

(** The events that pass [muon_counts] carry, in some order, two charges
    [+1] and two charges [-1]. *)
Lemma muon_counts_charges {P4} (muons : list (Lepton P4)) :
  muon_counts muons = true →
  length muons = 4
  ∧ charges muons ∈ [[1; 1; -1; -1]; [1; -1; 1; -1]; [1; -1; -1; 1];
                     [-1; 1; 1; -1]; [-1; 1; -1; 1]; [-1; -1; 1; 1]]%Z.
Proof.
  unfold muon_counts. rewrite !andb_true_iff, !Nat.eqb_eq. intros [[Hlen Hpos] Hneg].
  split; [done|].
  destruct muons as [|[c0 q0] [|[c1 q1] [|[c2 q2] [|[c3 q3] [|? ?]]]]]; try done.
  cbn [charges map charge]. rewrite !filter_cons, filter_nil in Hpos, Hneg.
  cbn [charge] in Hpos, Hneg.
  repeat case_decide; cbn [length] in Hpos, Hneg; try lia; subst; set_solver.
Qed.

Lemma muon_counts_selected {P4} (p4_add : P4 → P4 → P4) (zdist : P4 → Q)
    (muons : list (Lepton P4)) :
  muon_counts muons = true →
  length (candidates_of (length muons) (charges muons)) = 4
  ∧ ∃ fourmuon a,
      mapM (zip_fourmuon p4_add muons) (candidates_of (length muons) (charges muons))
      = Some fourmuon
      ∧ select_event zdist fourmuon = Some [a].
Proof.
  intros [Hlen Hch]%muon_counts_charges.
  assert (Hcs : length (candidates_of (length muons) (charges muons)) = 4).
  { rewrite Hlen. repeat (apply elem_of_cons in Hch as [->|Hch]; [by vm_compute|]).
    by apply elem_of_nil in Hch. }
  split; [done|].
  destruct (zip_select_spec p4_add zdist muons) as (fourmuon & a & Hzip & Hsel & _).
  { intros E. by rewrite E in Hcs. }
  eauto.
Qed.

(** A batch: every event that passes the filter yields one assignment. *)
Lemma batch_zip_select {P4} (p4_add : P4 → P4 → P4) (zdist : P4 → Q)
    (muons : list (list (Lepton P4))) :
  Forall (λ m, muon_counts m = true) muons →
  ∃ fourmuon picked,
    mapM (λ ev, mapM (zip_fourmuon p4_add ev.1) ev.2)
         (zip muons (map (λ ev, candidates_of (length ev) (charges ev)) muons))
    = Some fourmuon
    ∧ mapM (select_event zdist) fourmuon = Some picked
    ∧ length (concat picked) = length muons.
Proof.
  induction 1 as [|m muons Hm _ (fourmuon & picked & Hzip & Hsel & Hlen)].
  - by exists [], [].
  - destruct (muon_counts_selected p4_add zdist m Hm) as (_ & fm & a & Hfm & Ha).
    exists (fm :: fourmuon), ([a] :: picked).
    cbn [map zip zip_with mapM fst snd].
    rewrite Hfm. cbn [mbind option_bind]. rewrite Hzip.
    split; [done|]. rewrite Ha. cbn [mbind option_bind]. rewrite Hsel.
    split; [done|]. cbn. by rewrite Hlen.
Qed.

Lemma RunSamples_fourmuon_length {P4} (p4_add : P4 → P4 → P4) (zdist : P4 → Q)
    (muons : list (list (Lepton P4))) :
  ∃ selected,
    RunSamples_fourmuon p4_add zdist muons = Some selected
    ∧ length selected = length (filter (λ m, muon_counts m = true) muons).
Proof.
  unfold RunSamples_fourmuon.
  set (passed := filter (λ m, muon_counts m = true) muons).
  destruct (length passed =? 0) eqn:Hempty.
  - apply Nat.eqb_eq in Hempty. exists []. by rewrite Hempty.
  - rewrite find_4lep_snapshot_eq. cbn.
    destruct (batch_zip_select p4_add zdist passed) as (fourmuon & picked & Hzip & Hsel & Hlen).
    { apply Forall_forall. intros m Hm. by apply list_elem_of_filter in Hm as [? _]. }
    rewrite Hzip. cbn. unfold select_batch. rewrite Hsel. cbn. eauto.
Qed.



(** ** Further properties of the finder *)

Lemma candidates_of_ext n ch ch' :
  (∀ i j, balanced ch i j = balanced ch' i j) → candidates_of n ch = candidates_of n ch'.
Proof.
  intros Hb. unfold candidates_of.
  apply flat_map_ext. intros i0. apply flat_map_ext. intros i1.
  unfold first_pair. rewrite Hb. destruct (balanced ch' i0 i1); [|done].
  unfold second_pairs. apply flat_map_ext. intros i2. apply flat_map_ext. intros i3.
  unfold second_pair. by rewrite Hb.
Qed.

Lemma balanced_flip {P4} (leptons : list (Lepton P4)) i j :
  balanced (charges (map flip_charge leptons)) i j = balanced (charges leptons) i j.
Proof.
  unfold balanced, charges.
  change (map charge (map flip_charge leptons)) with (charge <$> (flip_charge <$> leptons)).
  change (map charge leptons) with (charge <$> leptons).
  rewrite !list_lookup_fmap.
  destruct (leptons !! i) as [li|], (leptons !! j) as [lj|]; cbn; try done.
  destruct (Z.eqb_spec (- charge li + - charge lj) 0), (Z.eqb_spec (charge li + charge lj) 0);
    try done; lia.
Qed.

Lemma balanced_app_l (ch more : list Z) i j :
  i < length ch → j < length ch → balanced (ch ++ more) i j = balanced ch i j.
Proof. intros Hi Hj. unfold balanced. by rewrite !lookup_app_l. Qed.

(** X1: the converse of C1: every way of picking two disjoint pairs of
    charge-balanced leptons, each pair with its smaller index first, is
    among the candidates. *)
Theorem find_4lep_complete {P4} (leptons : list (Lepton P4)) cs i0 i1 i2 i3 l0 l1 l2 l3 :
  findCandidates leptons = Some cs →
  leptons !! i0 = Some l0 → leptons !! i1 = Some l1 →
  leptons !! i2 = Some l2 → leptons !! i3 = Some l3 →
  (charge l0 + charge l1 = 0)%Z → (charge l2 + charge l3 = 0)%Z →
  NoDup [i0; i1; i2; i3] → i0 < i1 → i2 < i3 →
  (i0, i1, i2, i3) ∈ cs.
Proof.
  rewrite findCandidates_eq. intros [= <-] E0 E1 E2 E3 Hc01 Hc23 Hnd H01 H23.
  apply elem_of_candidates_of.
  pose proof (lookup_lt_Some _ _ _ E1). pose proof (lookup_lt_Some _ _ _ E3).
  repeat split; try done; try lia; apply balanced_charges; eauto 6.
Qed.

Lemma find_4lep_complete_witness : (1, 3, 0, 2) ∈ [(0, 2, 1, 3); (1, 3, 0, 2)].
Proof.
  apply (find_4lep_complete (map lepton_of_charge [2; 3; -2; -3]%Z) _ 1 3 0 2
           (lepton_of_charge 3) (lepton_of_charge (-3))
           (lepton_of_charge 2) (lepton_of_charge (-2))).
  - vm_compute. reflexivity.
  - reflexivity.
  - reflexivity.
  - reflexivity.
  - reflexivity.
  - reflexivity.
  - reflexivity.
  - apply NoDup4_iff. lia.
  - lia.
  - lia.
Defined.

(** X2: the events of a batch do not influence one another: the list that
    [find_4lep] builds for the [k]-th event is the one it builds for that
    event alone, and there is one list for every event. *)
Theorem find_4lep_event_by_event {P4} (events : list (list (Lepton P4))) :
  ∃ out, find_4lep_snapshot events = Some out
         ∧ Forall2 (λ leptons cs, findCandidates leptons = Some cs) events out.
Proof.
  exists (map (λ ev, candidates_of (length ev) (charges ev)) events).
  split; [apply find_4lep_snapshot_eq|].
  induction events; constructor; auto using findCandidates_eq.
Qed.

(** X3: the candidates depend on the charges alone: two events with the same
    charges, whatever the momenta, have the same candidates. *)
Theorem find_4lep_charges_only {P4 P4'} (leptons : list (Lepton P4)) (leptons' : list (Lepton P4')) :
  charges leptons = charges leptons' →
  findCandidates leptons = findCandidates leptons'.
Proof.
  intros Hch. rewrite !findCandidates_eq, <- Hch.
  replace (length leptons') with (length leptons); [done|].
  unfold charges in Hch. by rewrite <- (length_map charge leptons), Hch, length_map.
Qed.

Lemma find_4lep_charges_only_witness :
  findCandidates (map lepton_of_charge [1; -1; -1; 1]%Z)
  = findCandidates [lepton_of_mass 1 30; lepton_of_mass (-1) 40;
                    lepton_of_mass (-1) 50; lepton_of_mass 1 61].
Proof.
  apply (find_4lep_charges_only (map lepton_of_charge [1; -1; -1; 1]%Z)).
  reflexivity.
Defined.

(** X4: exchanging the sign of every charge leaves the candidates as they
    are. *)
Theorem find_4lep_flip_charges {P4} (leptons : list (Lepton P4)) :
  findCandidates (map flip_charge leptons) = findCandidates leptons.
Proof.
  rewrite !findCandidates_eq, length_map. f_equal.
  apply candidates_of_ext, balanced_flip.
Qed.

(** X5: leptons added at the end of an event take no candidate away and
    change none: the candidates of the shorter event are those of the
    longer one that use none of the added leptons. *)
Theorem find_4lep_more_leptons {P4} (leptons more : list (Lepton P4)) cs cs' i0 i1 i2 i3 :
  findCandidates leptons = Some cs →
  findCandidates (leptons ++ more) = Some cs' →
  ((i0, i1, i2, i3) ∈ cs
   ↔ (i0, i1, i2, i3) ∈ cs' ∧ i1 < length leptons ∧ i3 < length leptons).
Proof.
  rewrite !findCandidates_eq. intros [= <-] [= <-].
  rewrite !elem_of_candidates_of, length_app.
  unfold charges. rewrite map_app. fold (charges leptons) (charges more).
  assert (Hlen : length (charges leptons) = length leptons) by apply length_map.
  split.
  - intros (? & ? & ? & Hb01 & Hb23).
    rewrite !balanced_app_l by lia. repeat split; auto; lia.
  - intros ((? & ? & ? & Hb01 & Hb23) & ? & ?).
    rewrite !balanced_app_l in Hb01, Hb23 by lia. repeat split; auto; lia.
Qed.

Lemma find_4lep_more_leptons_witness :
  (0, 3, 1, 2) ∈ [(0, 1, 2, 3); (0, 3, 1, 2); (1, 2, 0, 3); (2, 3, 0, 1)]
  ↔ (0, 3, 1, 2) ∈ [(0, 1, 2, 3); (0, 1, 3, 4); (0, 3, 1, 2); (0, 3, 1, 4);
                    (1, 2, 0, 3); (1, 2, 3, 4); (1, 4, 0, 3); (1, 4, 2, 3);
                    (2, 3, 0, 1); (2, 3, 1, 4); (3, 4, 0, 1); (3, 4, 1, 2)]
    ∧ 3 < 4 ∧ 2 < 4.
Proof.
  apply (find_4lep_more_leptons (map lepton_of_charge [1; -1; 1; -1]%Z)
           [lepton_of_charge 1] _ _ 0 3 1 2).
  - vm_compute. reflexivity.
  - vm_compute. reflexivity.
Defined.

Lemma filter_length_pos {A} (P : A → Prop) `{∀ x, Decision (P x)} (l : list A) :
  0 < length (filter P l) ↔ ∃ i x, l !! i = Some x ∧ P x.
Proof.
  split.
  - destruct (filter P l) as [|x k] eqn:E; cbn; [lia|intros _].
    assert (Hx : x ∈ filter P l) by (rewrite E; left).
    apply list_elem_of_filter in Hx as [HP [i Hi]%list_elem_of_lookup_1]. eauto.
  - intros (i & x & Hi & HP).
    assert (Hx : x ∈ filter P l).
    { apply list_elem_of_filter. split; [done|]. by eapply list_elem_of_lookup_2. }
    destruct (filter P l); [by apply elem_of_nil in Hx|cbn; lia].
Qed.

Lemma filter_length_two_1 {A} (P : A → Prop) `{∀ x, Decision (P x)} (l : list A) :
  2 ≤ length (filter P l) →
  ∃ i j x y, i < j ∧ l !! i = Some x ∧ l !! j = Some y ∧ P x ∧ P y.
Proof.
  induction l as [|a l IH]; [cbn; lia|].
  rewrite filter_cons. destruct (decide (P a)) as [Ha|Ha]; cbn [length].
  - intros Hlen.
    destruct (proj1 (filter_length_pos P l)) as (j & y & Hj & Hy); [lia|].
    exists 0, (S j), a, y. repeat split; auto. lia.
  - intros (i & j & x & y & Hij & Hi & Hj & Hx & Hy)%IH.
    exists (S i), (S j), x, y. repeat split; auto. lia.
Qed.

Lemma filter_length_two_2 {A} (P : A → Prop) `{∀ x, Decision (P x)} (l : list A) i j x y :
  i ≠ j → l !! i = Some x → l !! j = Some y → P x → P y →
  2 ≤ length (filter P l).
Proof.
  intros Hij Hi Hj Hx Hy. revert i j Hij Hi Hj.
  induction l as [|a l IH]; intros i j Hij Hi Hj; [done|].
  assert (Hmono : length (filter P l) ≤ length (filter P (a :: l))).
  { rewrite filter_cons. destruct (decide (P a)); cbn; lia. }
  destruct i as [|i], j as [|j]; cbn in Hi, Hj; try done.
  - injection Hi as ->. rewrite filter_cons, decide_True by done. cbn.
    apply le_n_S, Nat.le_succ_l, filter_length_pos. eauto.
  - injection Hj as ->. rewrite filter_cons, decide_True by done. cbn.
    apply le_n_S, Nat.le_succ_l, filter_length_pos. eauto.
  - etransitivity; [|exact Hmono]. apply (IH i j); auto.
Qed.

Lemma opposite_unit_charges (a b : Z) :
  (a = 1 ∨ a = -1)%Z → (b = 1 ∨ b = -1)%Z → (a + b = 0)%Z →
  (a = 1 ∧ b = -1)%Z ∨ (a = -1 ∧ b = 1)%Z.
Proof. lia. Qed.

Lemma candidates_of_two_pairs {P4} (leptons : list (Lepton P4)) i j k l x y z w :
  i ≠ j → k ≠ l →
  leptons !! i = Some x → leptons !! j = Some y →
  leptons !! k = Some z → leptons !! l = Some w →
  charge x = 1%Z → charge y = 1%Z → charge z = (-1)%Z → charge w = (-1)%Z →
  (i `min` k, i `max` k, j `min` l, j `max` l)
  ∈ candidates_of (length leptons) (charges leptons).
Proof.
  intros Hij Hkl Hi Hj Hk Hl Hx Hy Hz Hw.
  assert (i ≠ k) by (intros ->; rewrite Hi in Hk; injection Hk as ->; lia).
  assert (i ≠ l) by (intros ->; rewrite Hi in Hl; injection Hl as ->; lia).
  assert (j ≠ k) by (intros ->; rewrite Hj in Hk; injection Hk as ->; lia).
  assert (j ≠ l) by (intros ->; rewrite Hj in Hl; injection Hl as ->; lia).
  pose proof (lookup_lt_Some _ _ _ Hi). pose proof (lookup_lt_Some _ _ _ Hj).
  pose proof (lookup_lt_Some _ _ _ Hk). pose proof (lookup_lt_Some _ _ _ Hl).
  apply elem_of_candidates_of. rewrite NoDup4_iff.
  split; [lia|]. split; [lia|]. split; [lia|].
  split; apply balanced_charges.
  - destruct (Nat.min_spec i k) as [[? ->]|[? ->]], (Nat.max_spec i k) as [[? ->]|[? ->]];
      try lia; [exists x, z|exists z, x]; repeat split; auto; lia.
  - destruct (Nat.min_spec j l) as [[? ->]|[? ->]], (Nat.max_spec j l) as [[? ->]|[? ->]];
      try lia; [exists y, w|exists w, y]; repeat split; auto; lia.
Qed.

(** X6: for muons of charge [+1] or [-1] the finder returns a candidate
    exactly when the event has at least two of each charge. *)
Theorem find_4lep_nonempty_iff {P4} (leptons : list (Lepton P4)) cs :
  (∀ l, l ∈ leptons → charge l = 1%Z ∨ charge l = (-1)%Z) →
  findCandidates leptons = Some cs →
  (cs ≠ []
   ↔ 2 ≤ length (filter (λ m, charge m = 1%Z) leptons)
     ∧ 2 ≤ length (filter (λ m, charge m = (-1)%Z) leptons)).
Proof.
  intros Hunit. rewrite findCandidates_eq. intros [= <-]. split.
  - destruct (candidates_of (length leptons) (charges leptons)) as [|[[[i0 i1] i2] i3] cs] eqn:E;
      [done|intros _].
    assert (Hc : (i0, i1, i2, i3) ∈ candidates_of (length leptons) (charges leptons))
      by (rewrite E; left).
    apply elem_of_candidates_of in Hc as (_ & _ & Hnd%NoDup4_iff & Hb01 & Hb23).
    apply balanced_charges in Hb01 as (l0 & l1 & E0 & E1 & Hc01).
    apply balanced_charges in Hb23 as (l2 & l3 & E2 & E3 & Hc23).
    assert (U0 := Hunit l0 (list_elem_of_lookup_2 _ _ _ E0)).
    assert (U1 := Hunit l1 (list_elem_of_lookup_2 _ _ _ E1)).
    assert (U2 := Hunit l2 (list_elem_of_lookup_2 _ _ _ E2)).
    assert (U3 := Hunit l3 (list_elem_of_lookup_2 _ _ _ E3)).
    destruct (opposite_unit_charges _ _ U0 U1 Hc01) as [[? ?]|[? ?]],
             (opposite_unit_charges _ _ U2 U3 Hc23) as [[? ?]|[? ?]].
    + split; [apply (filter_length_two_2 _ _ i0 i2 l0 l2)
             |apply (filter_length_two_2 _ _ i1 i3 l1 l3)]; auto; lia.
    + split; [apply (filter_length_two_2 _ _ i0 i3 l0 l3)
             |apply (filter_length_two_2 _ _ i1 i2 l1 l2)]; auto; lia.
    + split; [apply (filter_length_two_2 _ _ i1 i2 l1 l2)
             |apply (filter_length_two_2 _ _ i0 i3 l0 l3)]; auto; lia.
    + split; [apply (filter_length_two_2 _ _ i1 i3 l1 l3)
             |apply (filter_length_two_2 _ _ i0 i2 l0 l2)]; auto; lia.
  - intros [(i & j & x & y & Hij & Hi & Hj & Hx & Hy)%filter_length_two_1
            (k & l & z & w & Hkl & Hk & Hl & Hz & Hw)%filter_length_two_1].
    intros E.
    assert (Hc := candidates_of_two_pairs leptons i j k l x y z w).
    rewrite E in Hc. eapply elem_of_nil, Hc; auto; lia.
Qed.

Lemma find_4lep_nonempty_iff_witness :
  [(0, 2, 1, 3); (0, 3, 1, 2); (1, 2, 0, 3); (1, 3, 0, 2)] ≠ []
  ↔ 2 ≤ length (filter (λ m, charge m = 1%Z) (map lepton_of_charge [1; 1; -1; -1]%Z))
    ∧ 2 ≤ length (filter (λ m, charge m = (-1)%Z) (map lepton_of_charge [1; 1; -1; -1]%Z)).
Proof.
  apply (find_4lep_nonempty_iff (map lepton_of_charge [1; 1; -1; -1]%Z)).
  - intros l Hl. cbn in Hl.
    repeat (apply elem_of_cons in Hl as [->|Hl]; [cbn; auto|]).
    by apply elem_of_nil in Hl.
  - vm_compute. reflexivity.
Defined.

(** ** The event filter of [RunSamples] *)

Lemma filter_all {A} (P : A → Prop) `{∀ x, Decision (P x)} (l : list A) :
  length (filter P l) = length l ↔ Forall P l.
Proof.
  induction l as [|x l IH]; [by split; [constructor|]|].
  rewrite filter_cons, Forall_cons. pose proof (length_filter P l).
  destruct (decide (P x)); cbn [length]; [|split; [lia|tauto]].
  rewrite <- IH. split; [intros [=]; auto|intros [_ ->]; done].
Qed.

Lemma filter_id {A} (P : A → Prop) `{∀ x, Decision (P x)} (l : list A) :
  Forall P l → filter P l = l.
Proof.
  induction 1 as [|x l Hx _ IH]; [done|].
  by rewrite filter_cons, decide_True, IH.
Qed.

Lemma muon_counts_length {P4} (muons : list (Lepton P4)) :
  muon_counts muons = true → length muons = 4.
Proof.
  unfold muon_counts. rewrite !andb_true_iff, Nat.eqb_eq. tauto.
Qed.

Section CutsFacts.
Context {P4 : Type}.
Variable p4_add : P4 → P4 → P4.
Variable p4_mass : P4 → Q.
Variable zdist : P4 → Q.
Variable deltaR : Lepton P4 → Lepton P4 → Q.
Variable pfRelIso04_all : Lepton P4 → Q.
Variable kinematic_cut : Lepton P4 → bool.
Variable quality_cut : Lepton P4 → bool.

Local Abbreviation selection := (muon_selection kinematic_cut quality_cut).
Local Abbreviation counted := (counted_muons kinematic_cut quality_cut).
Local Abbreviation selected := (selected_muons kinematic_cut quality_cut).
Local Abbreviation assignment := (event_assignment p4_add zdist).
Local Abbreviation cut := (fourmuon_sel p4_mass deltaR).
Local Abbreviation batch :=
  (RunSamples_batch p4_add p4_mass zdist deltaR pfRelIso04_all kinematic_cut quality_cut).
Local Abbreviation loop :=
  (RunSamples_loop p4_add p4_mass zdist deltaR pfRelIso04_all kinematic_cut quality_cut).

Lemma elem_of_counted_muons apply_muon_id branches (muons : list (Lepton P4)) :
  muons ∈ counted apply_muon_id branches
  ↔ muons ∈ branches
    ∧ Forall (λ m, selection apply_muon_id m = true) muons
    ∧ muon_counts muons = true.
Proof.
  unfold counted_muons, selected_muons, four_muon_branches.
  rewrite list_elem_of_filter.
  change (map ?f ?l) with (f <$> l). rewrite list_elem_of_fmap.
  setoid_rewrite list_elem_of_filter. split.
  - intros (Hcount & ev & -> & Hlen & Hev).
    assert (Hall : Forall (λ m, selection apply_muon_id m = true) ev).
    { apply (proj1 (filter_all _ _)). apply muon_counts_length in Hcount. congruence. }
    rewrite (filter_id _ _ Hall) in *. done.
  - intros (Hev & Hall & Hcount). split; [done|].
    exists muons. rewrite (filter_id _ _ Hall).
    split; [done|]. split; [by apply muon_counts_length|done].
Qed.

Lemma counted_muons_app apply_muon_id (b1 b2 : list (list (Lepton P4))) :
  counted apply_muon_id (b1 ++ b2) = counted apply_muon_id b1 ++ counted apply_muon_id b2.
Proof.
  unfold counted_muons, selected_muons, four_muon_branches.
  by rewrite filter_app, map_app, filter_app.
Qed.

Lemma selected_muons_app apply_muon_id (b1 b2 : list (list (Lepton P4))) :
  selected apply_muon_id (b1 ++ b2) = selected apply_muon_id b1 ++ selected apply_muon_id b2.
Proof.
  unfold selected_muons, four_muon_branches. by rewrite filter_app, map_app.
Qed.

Lemma counted_muons_Forall apply_muon_id (branches : list (list (Lepton P4))) :
  Forall (λ m, muon_counts m = true) (counted apply_muon_id branches).
Proof.
  apply Forall_forall. intros m Hm. by apply list_elem_of_filter in Hm as [? _].
Qed.

(** ** [RunSamples] in closed form *)

Lemma event_assignment_singleton (muons : list (Lepton P4)) :
  muon_counts muons = true →
  ∃ fm a,
    mapM (zip_fourmuon p4_add muons) (candidates_of (length muons) (charges muons)) = Some fm
    ∧ select_event zdist fm = Some [a]
    ∧ assignment muons = [a].
Proof.
  intros (_ & fm & a & Hfm & Ha)%(muon_counts_selected p4_add zdist).
  exists fm, a. split; [done|]. split; [done|].
  unfold event_assignment. rewrite Hfm. cbn. by rewrite Ha.
Qed.

Lemma batch_zip_select_eq (muons : list (list (Lepton P4))) :
  Forall (λ m, muon_counts m = true) muons →
  ∃ fourmuon,
    mapM (λ ev, mapM (zip_fourmuon p4_add ev.1) ev.2)
         (zip muons (map (λ ev, candidates_of (length ev) (charges ev)) muons))
    = Some fourmuon
    ∧ select_batch zdist fourmuon = Some (concat (map assignment muons))
    ∧ length (concat (map assignment muons)) = length muons.
Proof.
  unfold select_batch.
  induction 1 as [|m muons Hm _ (fourmuon & Hzip & Hsel & Hlen)].
  - by exists [].
  - destruct (event_assignment_singleton m Hm) as (fm & a & Hfm & Ha & Hasg).
    exists (fm :: fourmuon).
    cbn [map zip zip_with mapM fst snd].
    rewrite Hfm. cbn [mbind option_bind]. rewrite Hzip.
    split; [done|]. rewrite Ha. cbn [mbind option_bind].
    destruct (mapM (select_event zdist) fourmuon) as [picked|]; [|done].
    cbn in Hsel. injection Hsel as Hsel.
    cbn. rewrite Hasg, Hsel. cbn. by rewrite Hlen.
Qed.

Lemma RunSamples_batch_eq apply_muon_id apply_Z_mass z1range z2range hists branches :
  batch apply_muon_id apply_Z_mass z1range z2range hists branches
  = let fourmuon :=
      filter (λ f, cut apply_Z_mass z1range z2range f = true)
             (concat (map assignment (counted apply_muon_id branches))) in
    Some (mkHists
            (m4l hists ++ map (λ f, p4_mass (p4_add (zp4 (z1 f)) (zp4 (z2 f)))) fourmuon)
            (mz1 hists ++ map (λ f, p4_mass (zp4 (z1 f))) fourmuon)
            (mz2 hists ++ map (λ f, p4_mass (zp4 (z2 f))) fourmuon)
            (iso hists
             ++ concat (map (map pfRelIso04_all) (selected apply_muon_id branches)))).
Proof.
  unfold RunSamples_batch. cbv zeta. fold (counted apply_muon_id branches).
  destruct (length (counted apply_muon_id branches) =? 0) eqn:Hempty.
  - apply Nat.eqb_eq, nil_length_inv in Hempty. rewrite Hempty. cbn.
    by rewrite !app_nil_r.
  - rewrite find_4lep_snapshot_eq. cbn [mbind option_bind].
    destruct (batch_zip_select_eq (counted apply_muon_id branches))
      as (fourmuon & Hzip & Hsel & _); [apply counted_muons_Forall|].
    rewrite Hzip. cbn [mbind option_bind]. rewrite Hsel. done.
Qed.

Lemma RunSamples_batch_app apply_muon_id apply_Z_mass z1range z2range hists b1 b2 :
  batch apply_muon_id apply_Z_mass z1range z2range hists (b1 ++ b2)
  = batch apply_muon_id apply_Z_mass z1range z2range hists b1
    ≫= λ hists', batch apply_muon_id apply_Z_mass z1range z2range hists' b2.
Proof.
  rewrite !RunSamples_batch_eq. cbn.
  rewrite RunSamples_batch_eq. cbn.
  rewrite counted_muons_app, selected_muons_app.
  rewrite !map_app, !concat_app, !filter_app, !map_app, <- !app_assoc. done.
Qed.

Lemma RunSamples_loop_concat apply_muon_id apply_Z_mass z1range z2range hists batches :
  loop apply_muon_id apply_Z_mass z1range z2range hists batches
  = batch apply_muon_id apply_Z_mass z1range z2range hists (concat batches).
Proof.
  revert hists. induction batches as [|b batches IH]; intros hists.
  - rewrite RunSamples_batch_eq. destruct hists. cbn. by rewrite !app_nil_r.
  - cbn [RunSamples_loop concat]. rewrite RunSamples_batch_app.
    destruct (batch apply_muon_id apply_Z_mass z1range z2range hists b); cbn; [apply IH|done].
Qed.

End CutsFacts.

(** ** Properties of [RunSamples] *)

Lemma Qlt_bool_lt x y : Qlt_bool x y = true → (x < y)%Q.
Proof.
  unfold Qlt_bool. intros H%negb_true_iff.
  apply Qnot_le_lt. intros Hle%Qle_bool_iff. congruence.
Qed.

(** X8: an event reaches [find_4lep] exactly when it has four muons, all four
    pass [muon_selection], and two have charge [+1] and two charge [-1];
    it then arrives with all its muons.  An event of five muons of which
    four pass, or of four of which one fails, is dropped. *)
Theorem RunSamples_counted_events {P4} (kinematic_cut quality_cut : Lepton P4 → bool)
    apply_muon_id (branches : list (list (Lepton P4))) muons :
  muons ∈ counted_muons kinematic_cut quality_cut apply_muon_id branches
  ↔ muons ∈ branches
    ∧ length muons = 4
    ∧ Forall (λ m, muon_selection kinematic_cut quality_cut apply_muon_id m = true) muons
    ∧ muon_counts muons = true.
Proof.
  rewrite elem_of_counted_muons. split; [|tauto].
  intros (? & ? & Hc). auto using muon_counts_length.
Qed.

(** X9: the histograms do not depend on how [uproot.iterate] cuts the events
    into batches: any sequence of batches fills them as the single batch
    of all the events does. *)
Theorem RunSamples_batches_irrelevant {P4} (p4_add : P4 → P4 → P4) (p4_mass zdist : P4 → Q)
    (deltaR : Lepton P4 → Lepton P4 → Q) (pfRelIso04_all : Lepton P4 → Q)
    (kinematic_cut quality_cut : Lepton P4 → bool)
    apply_muon_id apply_Z_mass z1range z2range (batches : list (list (list (Lepton P4)))) :
  RunSamples p4_add p4_mass zdist deltaR pfRelIso04_all kinematic_cut quality_cut
             apply_muon_id apply_Z_mass z1range z2range batches
  = RunSamples p4_add p4_mass zdist deltaR pfRelIso04_all kinematic_cut quality_cut
               apply_muon_id apply_Z_mass z1range z2range [concat batches].
Proof.
  unfold RunSamples. rewrite !RunSamples_loop_concat. cbn [concat]. by rewrite app_nil_r.
Qed.

(** X10: [RunSamples] raises on no input, and the three mass histograms
    receive the same number of entries, at most one for every event that
    reached [find_4lep]. *)
Theorem RunSamples_entries {P4} (p4_add : P4 → P4 → P4) (p4_mass zdist : P4 → Q)
    (deltaR : Lepton P4 → Lepton P4 → Q) (pfRelIso04_all : Lepton P4 → Q)
    (kinematic_cut quality_cut : Lepton P4 → bool)
    apply_muon_id apply_Z_mass z1range z2range (batches : list (list (list (Lepton P4)))) :
  ∃ hists,
    RunSamples p4_add p4_mass zdist deltaR pfRelIso04_all kinematic_cut quality_cut
               apply_muon_id apply_Z_mass z1range z2range batches = Some hists
    ∧ length (mz1 hists) = length (m4l hists)
    ∧ length (mz2 hists) = length (m4l hists)
    ∧ length (m4l hists)
      ≤ length (counted_muons kinematic_cut quality_cut apply_muon_id (concat batches)).
Proof.
  unfold RunSamples. rewrite RunSamples_loop_concat, RunSamples_batch_eq. cbv zeta.
  eexists. split; [reflexivity|]. cbn [m4l mz1 mz2 new_hists app].
  rewrite !length_map. split; [done|]. split; [done|].
  etransitivity; [apply length_filter|].
  destruct (batch_zip_select_eq p4_add zdist
              (counted_muons kinematic_cut quality_cut apply_muon_id (concat batches)))
    as (_ & _ & _ & ->); [apply counted_muons_Forall|done].
Qed.

(** X11: with [apply_Z_mass] every entry of the Z1 histogram lies strictly
    inside [z1range] and every entry of the Z2 histogram strictly inside
    [z2range]. *)
Theorem RunSamples_Z_mass_window {P4} (p4_add : P4 → P4 → P4) (p4_mass zdist : P4 → Q)
    (deltaR : Lepton P4 → Lepton P4 → Q) (pfRelIso04_all : Lepton P4 → Q)
    (kinematic_cut quality_cut : Lepton P4 → bool)
    apply_muon_id z1range z2range (batches : list (list (list (Lepton P4)))) hists :
  RunSamples p4_add p4_mass zdist deltaR pfRelIso04_all kinematic_cut quality_cut
             apply_muon_id true z1range z2range batches = Some hists →
  Forall (λ m, (z1range.1 < m)%Q ∧ (m < z1range.2)%Q) (mz1 hists)
  ∧ Forall (λ m, (z2range.1 < m)%Q ∧ (m < z2range.2)%Q) (mz2 hists).
Proof.
  unfold RunSamples. rewrite RunSamples_loop_concat, RunSamples_batch_eq. cbv zeta.
  intros [= <-]. cbn [mz1 mz2 new_hists app].
  change (map ?f ?l) with (f <$> l). rewrite !Forall_fmap.
  split; apply Forall_forall; intros f [Hf _]%list_elem_of_filter;
    cbn [fourmuon_sel] in Hf; rewrite !andb_true_iff in Hf;
    destruct Hf as [[[[[? ?] ?] ?] _] _]; cbn; auto using Qlt_bool_lt.
Qed.

Lemma RunSamples_Z_mass_window_witness :
  Forall (λ m, (80 < m)%Q ∧ (m < 100)%Q) [30 + 61]%Q
  ∧ Forall (λ m, (12 < m)%Q ∧ (m < 95)%Q) [40 + 50]%Q.
Proof.
  apply (RunSamples_Z_mass_window Qplus (λ m, m) zdist_of_mass (λ _ _, 1%Q) (λ _, 0%Q)
           (λ _, true) (λ _, true) false (80, 100)%Q (12, 95)%Q
           [[[lepton_of_mass 1 30; lepton_of_mass (-1) 40;
              lepton_of_mass 1 50; lepton_of_mass (-1) 61]]]
           (mkHists [30 + 61 + (40 + 50)]%Q [30 + 61]%Q [40 + 50]%Q [0; 0; 0; 0]%Q)).
  vm_compute. reflexivity.
Defined.

(** X12: the isolation histogram receives the isolation of every muon that
    passes [muon_selection] in every event of exactly four muons, also of
    the events that do not reach [find_4lep], and whatever [apply_Z_mass]
    and the mass windows are. *)
Theorem RunSamples_iso_entries {P4} (p4_add : P4 → P4 → P4) (p4_mass zdist : P4 → Q)
    (deltaR : Lepton P4 → Lepton P4 → Q) (pfRelIso04_all : Lepton P4 → Q)
    (kinematic_cut quality_cut : Lepton P4 → bool)
    apply_muon_id apply_Z_mass z1range z2range (batches : list (list (list (Lepton P4)))) :
  ∃ hists,
    RunSamples p4_add p4_mass zdist deltaR pfRelIso04_all kinematic_cut quality_cut
               apply_muon_id apply_Z_mass z1range z2range batches = Some hists
    ∧ iso hists
      = map pfRelIso04_all
          (filter (λ m, muon_selection kinematic_cut quality_cut apply_muon_id m = true)
                  (concat (filter (λ ev, length ev = 4) (concat batches)))).
Proof.
  unfold RunSamples. rewrite RunSamples_loop_concat, RunSamples_batch_eq. cbv zeta.
  eexists. split; [reflexivity|]. cbn [iso new_hists app].
  unfold selected_muons, four_muon_branches.
  induction (filter (λ ev, length ev = 4) (concat batches)) as [|ev evs IH]; [done|].
  cbn [map concat]. by rewrite filter_app, map_app, IH.
Qed.

(** ** Cuts only remove entries *)

Lemma sublist_map {A B} (f : A → B) (l1 l2 : list A) :
  l1 `sublist_of` l2 → map f l1 `sublist_of` map f l2.
Proof. induction 1; cbn; by constructor. Qed.

Lemma sublist_concat {A} (l1 l2 : list (list A)) :
  l1 `sublist_of` l2 → concat l1 `sublist_of` concat l2.
Proof.
  induction 1 as [|x l1 l2 _ IH|x l1 l2 _ IH]; cbn; [done| |].
  - by apply sublist_app.
  - by apply sublist_inserts_l.
Qed.

Lemma sublist_filter_mono {A} (P R : A → Prop) `{∀ x, Decision (P x)} `{∀ x, Decision (R x)}
    (l1 l2 : list A) :
  (∀ x, P x → R x) → l1 `sublist_of` l2 → filter P l1 `sublist_of` filter R l2.
Proof.
  intros HPR. induction 1 as [|x l1 l2 _ IH|x l1 l2 _ IH]; [done| |].
  - rewrite !filter_cons. destruct (decide (P x)) as [HP|HP].
    + rewrite decide_True by auto. by constructor.
    + destruct (decide (R x)); [by constructor|done].
  - rewrite (filter_cons R). destruct (decide (R x)); [by constructor|done].
Qed.

Section CutsOrder.
Context {P4 : Type}.
Variable p4_add : P4 → P4 → P4.
Variable p4_mass : P4 → Q.
Variable zdist : P4 → Q.
Variable deltaR : Lepton P4 → Lepton P4 → Q.
Variable pfRelIso04_all : Lepton P4 → Q.
Variable kinematic_cut : Lepton P4 → bool.
Variable quality_cut : Lepton P4 → bool.

Local Abbreviation selection := (muon_selection kinematic_cut quality_cut).
Local Abbreviation counted := (counted_muons kinematic_cut quality_cut).

Lemma muon_selection_weaken (m : Lepton P4) :
  selection true m = true → selection false m = true.
Proof. cbn. by intros [? _]%andb_true_iff. Qed.

Lemma counted_muons_single apply_muon_id (ev : list (Lepton P4)) :
  (counted apply_muon_id [ev] = [ev]
   ∧ Forall (λ m, selection apply_muon_id m = true) ev ∧ muon_counts ev = true)
  ∨ (counted apply_muon_id [ev] = []
     ∧ ¬ (Forall (λ m, selection apply_muon_id m = true) ev ∧ muon_counts ev = true)).
Proof.
  destruct (decide (Forall (λ m, selection apply_muon_id m = true) ev
                    ∧ muon_counts ev = true)) as [[Hall Hcount]|Hno].
  - left. split; [|done].
    unfold counted_muons, selected_muons, four_muon_branches.
    rewrite filter_cons, decide_True, filter_nil by by apply muon_counts_length.
    cbn [map]. rewrite (filter_id _ _ Hall).
    by rewrite filter_cons, decide_True, filter_nil.
  - right. split; [|done].
    destruct (counted apply_muon_id [ev]) as [|m rest] eqn:E; [done|].
    assert (Hm : m ∈ counted apply_muon_id [ev]) by (rewrite E; left).
    apply elem_of_counted_muons in Hm as (->%list_elem_of_singleton & ? & ?). tauto.
Qed.

Lemma counted_muons_sublist (branches : list (list (Lepton P4))) :
  counted true branches `sublist_of` counted false branches.
Proof.
  induction branches as [|ev branches IH]; [done|].
  change (ev :: branches) with ([ev] ++ branches). rewrite !counted_muons_app.
  apply sublist_app; [|done].
  destruct (counted_muons_single true ev) as [(-> & Hall & Hcount)|[-> _]];
    [|apply sublist_nil_l].
  destruct (counted_muons_single false ev) as [(-> & _)|[_ Hno]]; [done|].
  destruct Hno. split; [|done].
  eapply Forall_impl; [exact Hall|]. apply muon_selection_weaken.
Qed.

Lemma fourmuon_sel_weaken z1range z2range (f : FourMuon P4) :
  fourmuon_sel p4_mass deltaR true z1range z2range f = true →
  fourmuon_sel p4_mass deltaR false z1range z2range f = true.
Proof.
  cbn [fourmuon_sel]. unfold deltaR_cut. rewrite !andb_true_iff. tauto.
Qed.

Lemma fourmuon_sublist id id' zm zm' z1range z2range (branches : list (list (Lepton P4))) :
  (id' = true → id = true) → (zm' = true → zm = true) →
  filter (λ f, fourmuon_sel p4_mass deltaR zm z1range z2range f = true)
         (concat (map (event_assignment p4_add zdist) (counted id branches)))
  `sublist_of`
  filter (λ f, fourmuon_sel p4_mass deltaR zm' z1range z2range f = true)
         (concat (map (event_assignment p4_add zdist) (counted id' branches))).
Proof.
  intros Hid Hzm. apply sublist_filter_mono.
  - intros f Hf. destruct zm, zm'; auto using fourmuon_sel_weaken. by discriminate Hzm.
  - apply sublist_concat, sublist_map.
    destruct id, id'; auto using counted_muons_sublist. by discriminate Hid.
Qed.

End CutsOrder.

(** X13: switching on [apply_muon_id] or [apply_Z_mass] only takes entries
    away: each mass histogram of the stricter run is filled with a
    subsequence of the entries of the looser run. *)
Theorem RunSamples_cuts_sublist {P4} (p4_add : P4 → P4 → P4) (p4_mass zdist : P4 → Q)
    (deltaR : Lepton P4 → Lepton P4 → Q) (pfRelIso04_all : Lepton P4 → Q)
    (kinematic_cut quality_cut : Lepton P4 → bool)
    id id' zm zm' z1range z2range (batches : list (list (list (Lepton P4)))) :
  (id' = true → id = true) → (zm' = true → zm = true) →
  ∃ strict loose,
    RunSamples p4_add p4_mass zdist deltaR pfRelIso04_all kinematic_cut quality_cut
               id zm z1range z2range batches = Some strict
    ∧ RunSamples p4_add p4_mass zdist deltaR pfRelIso04_all kinematic_cut quality_cut
                 id' zm' z1range z2range batches = Some loose
    ∧ m4l strict `sublist_of` m4l loose
    ∧ mz1 strict `sublist_of` mz1 loose
    ∧ mz2 strict `sublist_of` mz2 loose.
Proof.
  intros Hid Hzm. unfold RunSamples.
  rewrite !RunSamples_loop_concat, !RunSamples_batch_eq. cbv zeta.
  eexists _, _. split; [reflexivity|]. split; [reflexivity|].
  cbn [m4l mz1 mz2 new_hists app].
  repeat split; apply sublist_map; by apply fourmuon_sublist.
Qed.

Lemma RunSamples_cuts_sublist_witness :
  ∃ strict loose,
    RunSamples Qplus (λ m, m) zdist_of_mass (λ _ _, 1%Q) (λ _, 0%Q) (λ _, true) (λ _, false)
               true true (80, 100)%Q (12, 95)%Q
               [[[lepton_of_mass 1 30; lepton_of_mass (-1) 40;
                  lepton_of_mass 1 50; lepton_of_mass (-1) 61]]] = Some strict
    ∧ RunSamples Qplus (λ m, m) zdist_of_mass (λ _ _, 1%Q) (λ _, 0%Q) (λ _, true) (λ _, false)
                 false true (80, 100)%Q (12, 95)%Q
                 [[[lepton_of_mass 1 30; lepton_of_mass (-1) 40;
                    lepton_of_mass 1 50; lepton_of_mass (-1) 61]]] = Some loose
    ∧ m4l strict `sublist_of` m4l loose
    ∧ mz1 strict `sublist_of` mz1 loose
    ∧ mz2 strict `sublist_of` mz2 loose.
Proof.
  apply (RunSamples_cuts_sublist Qplus (λ m, m) zdist_of_mass (λ _ _, 1%Q) (λ _, 0%Q)
           (λ _, true) (λ _, false) true false true true).
  - reflexivity.
  - reflexivity.
Defined.

(** ** The leptons of an assignment *)

Lemma zip_fourmuon_leptons {P4} (p4_add : P4 → P4 → P4) (muons : list (Lepton P4))
    i0 i1 i2 i3 a :
  zip_fourmuon p4_add muons (i0, i1, i2, i3) = Some a →
  mapM (λ i, muons !! i) [i0; i1; i2; i3] = Some (leptons_of a)
  ∧ zp4 (z1 a) = p4_add (p4 (lep1 (z1 a))) (p4 (lep2 (z1 a)))
  ∧ zp4 (z2 a) = p4_add (p4 (lep1 (z2 a))) (p4 (lep2 (z2 a))).
Proof.
  cbn. destruct (muons !! i0), (muons !! i1), (muons !! i2), (muons !! i3); cbn; try done.
  by intros [= <-].
Qed.

(** X15: every assignment built for an event that passed [muon_counts] uses
    each of the event's four muons exactly once, and each of its two Z
    candidates pairs two muons of opposite charge, the sum of whose
    momenta is the Z momentum. *)
Theorem RunSamples_assignment_leptons {P4} (p4_add : P4 → P4 → P4)
    (muons : list (Lepton P4)) cs fourmuon a :
  muon_counts muons = true →
  findCandidates muons = Some cs →
  mapM (zip_fourmuon p4_add muons) cs = Some fourmuon →
  a ∈ fourmuon →
  leptons_of a ≡ₚ muons
  ∧ (charge (lep1 (z1 a)) + charge (lep2 (z1 a)) = 0)%Z
  ∧ (charge (lep1 (z2 a)) + charge (lep2 (z2 a)) = 0)%Z
  ∧ zp4 (z1 a) = p4_add (p4 (lep1 (z1 a))) (p4 (lep2 (z1 a)))
  ∧ zp4 (z2 a) = p4_add (p4 (lep1 (z2 a))) (p4 (lep2 (z2 a))).
Proof.
  intros Hlen%muon_counts_length. rewrite findCandidates_eq. intros [= <-] Hzip%mapM_Some Ha.
  apply list_elem_of_lookup_1 in Ha as [k Hk].
  destruct (Forall2_lookup_r _ _ _ _ _ Hzip Hk) as ([[[i0 i1] i2] i3] & Hc & Hca).
  apply list_elem_of_lookup_2, elem_of_candidates_of in Hc
    as (H01 & H23 & Hnd%NoDup4_iff & Hb01 & Hb23).
  apply zip_fourmuon_leptons in Hca as (Hleps & Hz1 & Hz2).
  apply balanced_charges in Hb01 as (l0 & l1 & E0 & E1 & Hc01).
  apply balanced_charges in Hb23 as (l2 & l3 & E2 & E3 & Hc23).
  cbn in Hleps. rewrite E0, E1, E2, E3 in Hleps. cbn in Hleps.
  unfold leptons_of, mret, option_ret in Hleps. injection Hleps as -> -> -> ->.
  split; [|done]. unfold leptons_of.
  destruct muons as [|m0 [|m1 [|m2 [|m3 [|? ?]]]]]; try done. clear Hlen Hzip Hk.
  cbn [length] in *.
  destruct i0 as [|[|[|[|?]]]]; try lia;
    destruct i1 as [|[|[|[|?]]]]; try lia;
    destruct i2 as [|[|[|[|?]]]]; try lia;
    destruct i3 as [|[|[|[|?]]]]; try lia;
    cbn in E0, E1, E2, E3;
    injection E0 as <-; injection E1 as <-; injection E2 as <-; injection E3 as <-;
    solve_Permutation.
Qed.

Lemma RunSamples_assignment_leptons_witness :
  leptons_of (mkFourMuon
                (mkZCand (lepton_of_mass 1 30) (lepton_of_mass (-1) 61) (30 + 61)%Q)
                (mkZCand (lepton_of_mass (-1) 40) (lepton_of_mass 1 50) (40 + 50)%Q))
  ≡ₚ [lepton_of_mass 1 30; lepton_of_mass (-1) 40;
      lepton_of_mass 1 50; lepton_of_mass (-1) 61]
  ∧ (1 + -1 = 0)%Z ∧ (-1 + 1 = 0)%Z
  ∧ (30 + 61)%Q = Qplus 30 61 ∧ (40 + 50)%Q = Qplus 40 50.
Proof.
  apply (RunSamples_assignment_leptons Qplus
           [lepton_of_mass 1 30; lepton_of_mass (-1) 40;
            lepton_of_mass 1 50; lepton_of_mass (-1) 61]
           [(0, 1, 2, 3); (0, 3, 1, 2); (1, 2, 0, 3); (2, 3, 0, 1)]
           [mkFourMuon
              (mkZCand (lepton_of_mass 1 30) (lepton_of_mass (-1) 40) (30 + 40)%Q)
              (mkZCand (lepton_of_mass 1 50) (lepton_of_mass (-1) 61) (50 + 61)%Q);
            mkFourMuon
              (mkZCand (lepton_of_mass 1 30) (lepton_of_mass (-1) 61) (30 + 61)%Q)
              (mkZCand (lepton_of_mass (-1) 40) (lepton_of_mass 1 50) (40 + 50)%Q);
            mkFourMuon
              (mkZCand (lepton_of_mass (-1) 40) (lepton_of_mass 1 50) (40 + 50)%Q)
              (mkZCand (lepton_of_mass 1 30) (lepton_of_mass (-1) 61) (30 + 61)%Q);
            mkFourMuon
              (mkZCand (lepton_of_mass 1 50) (lepton_of_mass (-1) 61) (50 + 61)%Q)
              (mkZCand (lepton_of_mass 1 30) (lepton_of_mass (-1) 40) (30 + 40)%Q)]).
  - reflexivity.
  - vm_compute. reflexivity.
  - reflexivity.
  - right. left.
Defined.

(** ** Ties in the selection *)

Lemma argmin_from_first l : ∀ best vbest k,
  best < k →
  argmin_from best vbest k l = best
  ∨ ∃ v, k ≤ argmin_from best vbest k l
         ∧ l !! (argmin_from best vbest k l - k) = Some v
         ∧ (v < vbest)%Q
         ∧ ∀ j x, j < argmin_from best vbest k l - k → l !! j = Some x → (v < x)%Q.
Proof.
  induction l as [|x l IH]; intros best vbest k Hk; cbn [argmin_from]; [by left|].
  destruct (Qlt_bool x vbest) eqn:Hlt.
  - apply Qlt_bool_lt in Hlt. right.
    destruct (IH k x (S k)) as [Hr|(v & Hge & Hv & Hvx & Hbefore)]; [lia| |].
    + rewrite Hr, Nat.sub_diag. exists x. repeat split; auto. intros j y Hj. lia.
    + exists v. split; [lia|].
      replace (argmin_from k x (S k) l - k) with (S (argmin_from k x (S k) l - S k)) by lia.
      split; [done|]. split; [by apply Qlt_trans with x|].
      intros [|j] y Hj; cbn; [by intros [= <-]|]. apply Hbefore. lia.
  - apply Qlt_bool_false in Hlt.
    destruct (IH best vbest (S k)) as [Hr|(v & Hge & Hv & Hvb & Hbefore)]; [lia|by left|].
    right. exists v. split; [lia|].
    replace (argmin_from best vbest (S k) l - k)
      with (S (argmin_from best vbest (S k) l - S k)) by lia.
    split; [done|]. split; [done|].
    intros [|j] y Hj; cbn; [intros [= <-]; by apply Qlt_le_trans with vbest|].
    apply Hbefore. lia.
Qed.

Lemma argmin_first l r v :
  argmin l = Some r → l !! r = Some v →
  ∀ j x, j < r → l !! j = Some x → (v < x)%Q.
Proof.
  destruct l as [|x0 l]; [done|]. cbn [argmin]. intros [= <-] Hv.
  destruct (argmin_from_first l 0 x0 1) as [Hr|(w & Hge & Hw & Hwx & Hbefore)]; [lia| |].
  - rewrite Hr. intros j x Hj. lia.
  - rewrite lookup_cons_ne_0, <- Nat.sub_1_r, Hw in Hv by lia. injection Hv as <-.
    intros [|j] x Hj; cbn; [by intros [= <-]|]. apply Hbefore. lia.
Qed.

(** X16: when several candidates are equally close to the Z mass the selection
    takes the one emitted first: every candidate before the selected one
    has its Z1 mass strictly farther from 91.1876. *)
Theorem select_event_first_minimum {P4} (zdist : P4 → Q) (fourmuon : list (FourMuon P4)) r a :
  bestz1 zdist fourmuon = [r] →
  fourmuon !! r = Some a →
  select_event zdist fourmuon = Some [a]
  ∧ (∀ j b, j < r → fourmuon !! j = Some b → (z1dist zdist a < z1dist zdist b)%Q)
  ∧ (∀ j b, fourmuon !! j = Some b → (z1dist zdist a <= z1dist zdist b)%Q).
Proof.
  intros Hbest Ha.
  assert (Hne : fourmuon ≠ []) by (by intros ->).
  destruct (select_event_nonempty zdist fourmuon Hne) as (r' & a' & Hr' & Ha' & Hsel & Hmin).
  rewrite Hbest in Hr'. injection Hr' as <-. rewrite Ha in Ha'. injection Ha' as <-.
  split; [done|]. split.
  - intros j b Hj Hb.
    unfold bestz1 in Hbest.
    destruct (argmin (map (z1dist zdist) fourmuon)) as [r0|] eqn:Hr0; [|done].
    injection Hbest as ->.
    apply (argmin_first _ _ (z1dist zdist a) Hr0) with j; [|done|].
    + change (map ?f ?l) with (f <$> l). by rewrite list_lookup_fmap, Ha.
    + change (map ?f ?l) with (f <$> l). by rewrite list_lookup_fmap, Hb.
  - intros j b Hb. apply Hmin. by eapply list_elem_of_lookup_2.
Qed.

Lemma select_event_first_minimum_witness :
  select_event zdist_of_mass
    [mkFourMuon (mkZCand (lepton_of_mass 1 30) (lepton_of_mass (-1) 40) 70%Q)
                (mkZCand (lepton_of_mass 1 50) (lepton_of_mass (-1) 61) 111%Q);
     mkFourMuon (mkZCand (lepton_of_mass 1 30) (lepton_of_mass (-1) 61) 91%Q)
                (mkZCand (lepton_of_mass (-1) 40) (lepton_of_mass 1 50) 90%Q);
     mkFourMuon (mkZCand (lepton_of_mass 1 50) (lepton_of_mass (-1) 41) 91%Q)
                (mkZCand (lepton_of_mass 1 30) (lepton_of_mass (-1) 40) 70%Q)]
  = Some [mkFourMuon (mkZCand (lepton_of_mass 1 30) (lepton_of_mass (-1) 61) 91%Q)
                     (mkZCand (lepton_of_mass (-1) 40) (lepton_of_mass 1 50) 90%Q)]
  ∧ (∀ j b, j < 1 →
       [mkFourMuon (mkZCand (lepton_of_mass 1 30) (lepton_of_mass (-1) 40) 70%Q)
                   (mkZCand (lepton_of_mass 1 50) (lepton_of_mass (-1) 61) 111%Q);
        mkFourMuon (mkZCand (lepton_of_mass 1 30) (lepton_of_mass (-1) 61) 91%Q)
                   (mkZCand (lepton_of_mass (-1) 40) (lepton_of_mass 1 50) 90%Q);
        mkFourMuon (mkZCand (lepton_of_mass 1 50) (lepton_of_mass (-1) 41) 91%Q)
                   (mkZCand (lepton_of_mass 1 30) (lepton_of_mass (-1) 40) 70%Q)] !! j = Some b →
       (zdist_of_mass 91 < z1dist zdist_of_mass b)%Q)
  ∧ (∀ j b,
       [mkFourMuon (mkZCand (lepton_of_mass 1 30) (lepton_of_mass (-1) 40) 70%Q)
                   (mkZCand (lepton_of_mass 1 50) (lepton_of_mass (-1) 61) 111%Q);
        mkFourMuon (mkZCand (lepton_of_mass 1 30) (lepton_of_mass (-1) 61) 91%Q)
                   (mkZCand (lepton_of_mass (-1) 40) (lepton_of_mass 1 50) 90%Q);
        mkFourMuon (mkZCand (lepton_of_mass 1 50) (lepton_of_mass (-1) 41) 91%Q)
                   (mkZCand (lepton_of_mass 1 30) (lepton_of_mass (-1) 40) 70%Q)] !! j = Some b →
       (zdist_of_mass 91 <= z1dist zdist_of_mass b)%Q).
Proof.
  apply (select_event_first_minimum zdist_of_mass _ 1).
  - vm_compute. reflexivity.
  - reflexivity.
Defined.

(** ** The selection over a batch *)

Lemma RunSamples_fourmuon_eq {P4} (p4_add : P4 → P4 → P4) (zdist : P4 → Q)
    (muons : list (list (Lepton P4))) :
  RunSamples_fourmuon p4_add zdist muons
  = Some (concat (map (event_assignment p4_add zdist)
                      (filter (λ m, muon_counts m = true) muons))).
Proof.
  unfold RunSamples_fourmuon.
  set (passed := filter (λ m, muon_counts m = true) muons).
  assert (Hpassed : Forall (λ m, muon_counts m = true) passed).
  { apply Forall_forall. intros m Hm. by apply list_elem_of_filter in Hm as [? _]. }
  destruct (length passed =? 0) eqn:Hempty.
  - apply Nat.eqb_eq, nil_length_inv in Hempty. by rewrite Hempty.
  - rewrite find_4lep_snapshot_eq. cbn [mbind option_bind].
    destruct (batch_zip_select_eq p4_add zdist passed Hpassed) as (fourmuon & Hzip & Hsel & _).
    rewrite Hzip. cbn [mbind option_bind]. exact Hsel.
Qed.

Lemma muon_counts_best_pairing {P4} (p4_add : P4 → P4 → P4) (dist : P4 → Q)
    (muons : list (Lepton P4)) :
  muon_counts muons = true →
  ∃ a, event_assignment p4_add dist muons = [a]
       ∧ best_pairing p4_add dist muons (candidates_of (length muons) (charges muons)) a.
Proof.
  intros Hcount.
  destruct (muon_counts_selected p4_add dist muons Hcount) as (Hlen & _).
  destruct (event_select p4_add dist muons) as (_ & _ & _ & _ & Hbest).
  apply Hbest. intros E. by rewrite E in Hlen.
Qed.

(** X17: on every batch the selection stage of [RunSamples] raises nothing
    and returns, in the order of the events, exactly one assignment for
    each event that passes [muon_counts] and nothing else.  The assignment
    of an event is built from one of its candidates [(i0, i1, i2, i3)],
    with the leptons at these indices and the sums of their momenta; the
    distance [abs(mass - 91.1876)] of its Z1 is the least among the first
    pairs of all candidates of the event and at most that of its Z2. *)
Theorem RunSamples_fourmuon_selected {P4} (p4_add : P4 → P4 → P4) (p4_mass : P4 → Q)
    (rnd : Q → Q) (muons : list (list (Lepton P4))) :
  ∃ picked,
    RunSamples_fourmuon p4_add (z_mass_dist p4_mass rnd) muons = Some (concat picked)
    ∧ Forall2
        (λ ev sel, ∃ cs a,
           findCandidates ev = Some cs ∧ sel = [a]
           ∧ best_pairing p4_add (λ p, rnd (Qabs (p4_mass p - 91.1876))) ev cs a)
        (filter (λ m, muon_counts m = true) muons) picked.
Proof.
  exists (map (event_assignment p4_add (z_mass_dist p4_mass rnd))
              (filter (λ m, muon_counts m = true) muons)).
  split; [apply RunSamples_fourmuon_eq|].
  change (map ?f ?l) with (f <$> l). apply Forall2_fmap_r, Forall_Forall2_diag.
  apply Forall_forall. intros ev [Hcount _]%list_elem_of_filter.
  destruct (muon_counts_best_pairing p4_add (z_mass_dist p4_mass rnd) ev Hcount)
    as (a & Ha & Hbest).
  exists (candidates_of (length ev) (charges ev)), a.
  split; [apply findCandidates_eq|]. split; [done|]. exact Hbest.
Qed.

(** ** [CalculateFourMuonMass] *)

Section FourMuonMass.
Context {P4 : Type}.
Variable p4_add : P4 → P4 → P4.
Variable p4_mass : P4 → Q.

Lemma four_muon_mass_filter (muons : list (list P4)) :
  omap (four_muon_mass p4_add p4_mass) (filter (λ ev, length ev = 4) muons)
  = omap (four_muon_mass p4_add p4_mass) muons.
Proof.
  induction muons as [|ev muons IH]; [done|].
  rewrite filter_cons. destruct (decide (length ev = 4)) as [Hlen|Hlen]; cbn; [by rewrite IH|].
  rewrite IH.
  by destruct ev as [|a [|b [|c [|d [|? ?]]]]].
Qed.

Lemma columns_of_four (events : list (list P4)) :
  Forall (λ ev, length ev = 4) events →
  ∃ c0 c1 c2 c3,
    column events 0 = Some c0 ∧ column events 1 = Some c1
    ∧ column events 2 = Some c2 ∧ column events 3 = Some c3
    ∧ map p4_mass (zip_with p4_add (zip_with p4_add (zip_with p4_add c0 c1) c2) c3)
      = omap (four_muon_mass p4_add p4_mass) events.
Proof.
  unfold column.
  induction 1 as [|ev events Hlen _ (c0 & c1 & c2 & c3 & E0 & E1 & E2 & E3 & Hmass)].
  - by exists [], [], [], [].
  - destruct ev as [|a [|b [|c [|d [|? ?]]]]]; try done.
    exists (a :: c0), (b :: c1), (c :: c2), (d :: c3).
    cbn [mapM]. rewrite E0, E1, E2, E3. cbn. by rewrite Hmass.
Qed.

Lemma CalculateFourMuonMass_batch_eq hist (muons : list (list P4)) :
  CalculateFourMuonMass_batch p4_add p4_mass hist muons
  = Some (hist ++ omap (four_muon_mass p4_add p4_mass) muons).
Proof.
  unfold CalculateFourMuonMass_batch. cbv zeta.
  destruct (columns_of_four (filter (λ ev, length ev = 4) muons))
    as (c0 & c1 & c2 & c3 & -> & -> & -> & -> & Hmass).
  { apply Forall_forall. intros ev Hev. by apply list_elem_of_filter in Hev as [? _]. }
  cbn. unfold fill. by rewrite Hmass, four_muon_mass_filter.
Qed.

Lemma CalculateFourMuonMass_loop_eq hist (batches : list (list (list P4))) :
  CalculateFourMuonMass_loop p4_add p4_mass hist batches
  = Some (hist ++ omap (four_muon_mass p4_add p4_mass) (concat batches)).
Proof.
  revert hist. induction batches as [|muons batches IH]; intros hist; cbn.
  - by rewrite app_nil_r.
  - rewrite CalculateFourMuonMass_batch_eq. cbn. rewrite IH.
    by rewrite omap_app, app_assoc.
Qed.

End FourMuonMass.

(** X18: [CalculateFourMuonMass] never fails on its column accesses: thanks to
    the filter in front of them every event they see has four muons.  The
    histogram receives one entry for every event of exactly four muons,
    the mass of [((p0 + p1) + p2) + p3], in the order of the events and
    however they are cut into batches; events of any other size add
    nothing. *)
Theorem CalculateFourMuonMass_entries {P4} (p4_add : P4 → P4 → P4) (p4_mass : P4 → Q)
    (batches : list (list (list P4))) :
  CalculateFourMuonMass_loop p4_add p4_mass [] batches
  = Some (omap (four_muon_mass p4_add p4_mass) (concat batches))
  ∧ length (omap (four_muon_mass p4_add p4_mass) (concat batches))
    = length (filter (λ ev, length ev = 4) (concat batches)).
Proof.
  split; [by rewrite CalculateFourMuonMass_loop_eq|].
  induction (concat batches) as [|ev evs IH]; [done|].
  rewrite filter_cons.
  destruct ev as [|a [|b [|c [|d [|? ?]]]]]; cbn; rewrite ?decide_True, ?decide_False by done;
    cbn; auto.
Qed.

(** ** The number of candidates *)

Lemma filter_ext_elem {A} (P R : A → Prop) `{∀ x, Decision (P x)} `{∀ x, Decision (R x)}
    (l : list A) :
  (∀ x, x ∈ l → P x ↔ R x) → filter P l = filter R l.
Proof.
  induction l as [|x l IH]; intros HPR; [done|].
  rewrite !filter_cons, IH by (intros y Hy; apply HPR; by right).
  destruct (decide (P x)) as [HP|HP], (decide (R x)) as [HR|HR]; try done;
    [destruct HR|destruct HP]; apply (HPR x); auto; left.
Qed.

Lemma length_indices_of_charge {P4} (c : Z) (leptons : list (Lepton P4)) :
  length (indices_of_charge c leptons) = length (filter (λ m, charge m = c) leptons).
Proof.
  unfold indices_of_charge.
  induction leptons as [|x leptons IH] using rev_ind; [done|].
  rewrite length_app, Nat.add_1_r, seq_S, !filter_app, !length_app. cbn [Nat.add].
  f_equal.
  - rewrite <- IH. f_equal. apply filter_ext_elem.
    intros i Hi%elem_of_seq. by rewrite lookup_app_l by lia.
  - rewrite !filter_cons, !filter_nil, list_lookup_middle by done. cbn.
    destruct (decide (Some (charge x) = Some c)) as [[= E]|E],
             (decide (charge x = c)) as [E'|E']; try done. by destruct E; f_equal.
Qed.

Lemma elem_of_indices_of_charge {P4} (c : Z) (leptons : list (Lepton P4)) i :
  i ∈ indices_of_charge c leptons ↔ ∃ m, leptons !! i = Some m ∧ charge m = c.
Proof.
  unfold indices_of_charge. rewrite list_elem_of_filter, elem_of_seq. split.
  - intros [Hc _]. destruct (leptons !! i) as [m|]; [|done].
    injection Hc as Hc. eauto.
  - intros (m & Hm & Hc). rewrite Hm. split; [by cbn; f_equal|].
    apply lookup_lt_Some in Hm. lia.
Qed.

Lemma NoDup_indices_of_charge {P4} (c : Z) (leptons : list (Lepton P4)) :
  NoDup (indices_of_charge c leptons).
Proof. apply NoDup_filter, NoDup_seq. Qed.

Lemma length_filter_ne (l : list nat) a :
  NoDup l → a ∈ l → length (filter (λ i, i ≠ a) l) = length l - 1.
Proof.
  induction 1 as [|x l Hx Hl IH]; [by intros ?%elem_of_nil|].
  rewrite filter_cons. intros [->|Ha]%elem_of_cons.
  - rewrite decide_False by auto. rewrite filter_id; [cbn; lia|].
    apply Forall_forall. intros y Hy ->. done.
  - rewrite decide_True by (intros ->; done). cbn. rewrite IH by done.
    destruct l; [by apply elem_of_nil in Ha|cbn; lia].
Qed.

Lemma length_flat_map_const {A B} (f : A → list B) (l : list A) k :
  (∀ x, x ∈ l → length (f x) = k) → length (flat_map f l) = length l * k.
Proof.
  induction l as [|x l IH]; intros Hf; [done|].
  cbn. rewrite length_app, Hf, IH; [lia| |left]. intros y Hy. apply Hf. by right.
Qed.

Lemma NoDup_flat_map {A B} (f : A → list B) (l : list A) :
  (∀ x1 x2 y, x1 ∈ l → x2 ∈ l → y ∈ f x1 → y ∈ f x2 → x1 = x2) →
  (∀ x, x ∈ l → NoDup (f x)) → NoDup l → NoDup (flat_map f l).
Proof.
  intros Hinj Hf. induction 1 as [|x l Hx Hl IH]; cbn; [constructor|].
  apply NoDup_app. split; [apply Hf; left|]. split.
  - intros y Hy (x' & Hx' & Hy')%elem_of_flat_map.
    apply Hx. rewrite (Hinj x x' y); auto; [left|by right].
  - apply IH.
    + intros x1 x2 y H1 H2. apply Hinj; by right.
    + intros y Hy. apply Hf. by right.
Qed.

Lemma NoDup_list_prod {A B} (l : list A) (k : list B) :
  NoDup l → NoDup k → NoDup (list_prod l k).
Proof.
  intros Hl Hk. induction Hl as [|x l Hx Hl IH]; cbn; [constructor|].
  apply NoDup_app. split; [|split; [|done]].
  - change (map ?f k) with (f <$> k). apply NoDup_fmap_2_strong; [|done]. by intros ? ? _ _ [= ->].
  - intros [a b]. change (map ?f k) with (f <$> k).
    intros (b' & [= -> ->] & _)%list_elem_of_fmap Hin%list_elem_of_In%in_prod_iff.
    apply Hx, list_elem_of_In, Hin.
Qed.

Lemma elem_of_list_prod {A B} (l : list A) (k : list B) a b :
  (a, b) ∈ list_prod l k ↔ a ∈ l ∧ b ∈ k.
Proof. by rewrite !list_elem_of_In, in_prod_iff. Qed.

Lemma elem_of_paired_candidates pos neg c :
  c ∈ paired_candidates pos neg
  ↔ ∃ a b a' b',
      a ∈ pos ∧ b ∈ neg ∧ a' ∈ pos ∧ b' ∈ neg ∧ a' ≠ a ∧ b' ≠ b
      ∧ c = (a `min` b, a `max` b, a' `min` b', a' `max` b').
Proof.
  unfold paired_candidates. rewrite elem_of_flat_map. split.
  - intros ([a b] & [Ha Hb]%elem_of_list_prod & Hc).
    change (map ?f ?l) with (f <$> l) in Hc.
    apply list_elem_of_fmap in Hc as ([a' b'] & -> & [Ha' Hb']%elem_of_list_prod).
    apply list_elem_of_filter in Ha' as [? ?], Hb' as [? ?]. cbn in *.
    exists a, b, a', b'. auto 10.
  - intros (a & b & a' & b' & Ha & Hb & Ha' & Hb' & Hna & Hnb & ->).
    exists (a, b). split; [by apply elem_of_list_prod|].
    change (map ?f ?l) with (f <$> l). apply list_elem_of_fmap.
    exists (a', b'). split; [done|].
    apply elem_of_list_prod. by rewrite !list_elem_of_filter.
Qed.

Lemma min_max_inj (a b a' b' : nat) :
  a `min` b = a' `min` b' → a `max` b = a' `max` b' →
  (a = a' ∧ b = b') ∨ (a = b' ∧ b = a').
Proof. lia. Qed.

Lemma NoDup_paired_candidates pos neg :
  NoDup pos → NoDup neg → (∀ i, i ∈ pos → i ∉ neg) →
  NoDup (paired_candidates pos neg).
Proof.
  intros Hpos Hneg Hdisj. unfold paired_candidates.
  apply NoDup_flat_map; [| |by apply NoDup_list_prod].
  - intros [a1 b1] [a2 b2] y [Ha1 Hb1]%elem_of_list_prod [Ha2 Hb2]%elem_of_list_prod.
    change (map ?f ?l) with (f <$> l).
    intros (? & -> & _)%list_elem_of_fmap (? & [= Hmin Hmax _ _] & _)%list_elem_of_fmap.
    cbn in *.
    destruct (min_max_inj _ _ _ _ Hmin Hmax) as [[-> ->]|[-> ->]]; [done|].
    by destruct (Hdisj b2).
  - intros [a b] _. change (map ?f ?l) with (f <$> l).
    apply NoDup_fmap_2_strong; [|by apply NoDup_list_prod; apply NoDup_filter].
    intros [a1 b1] [a2 b2] [Ha1 Hb1]%elem_of_list_prod [Ha2 Hb2]%elem_of_list_prod
           [= Hmin Hmax].
    apply list_elem_of_filter in Ha1 as [_ Ha1], Hb1 as [_ Hb1], Ha2 as [_ Ha2], Hb2 as [_ Hb2].
    cbn in *.
    destruct (min_max_inj _ _ _ _ Hmin Hmax) as [[-> ->]|[-> ->]]; [done|].
    by destruct (Hdisj b2).
Qed.

Lemma length_paired_candidates pos neg :
  NoDup pos → NoDup neg →
  length (paired_candidates pos neg)
  = length pos * (length pos - 1) * length neg * (length neg - 1).
Proof.
  intros Hpos Hneg. unfold paired_candidates.
  rewrite (length_flat_map_const _ _ ((length pos - 1) * (length neg - 1))).
  - rewrite length_prod. lia.
  - intros [a b] [Ha Hb]%elem_of_list_prod. cbn.
    by rewrite length_map, length_prod, !length_filter_ne.
Qed.

Lemma candidates_of_paired {P4} (leptons : list (Lepton P4)) :
  (∀ l, l ∈ leptons → charge l = 1%Z ∨ charge l = (-1)%Z) →
  candidates_of (length leptons) (charges leptons)
  ≡ₚ paired_candidates (indices_of_charge 1 leptons) (indices_of_charge (-1) leptons).
Proof.
  intros Hunit. apply NoDup_Permutation.
  - apply candidates_of_NoDup.
  - apply NoDup_paired_candidates; auto using NoDup_indices_of_charge.
    intros i (m & Hm & Hc)%elem_of_indices_of_charge (m' & Hm' & Hc')%elem_of_indices_of_charge.
    rewrite Hm in Hm'. injection Hm' as <-. lia.
  - intros [[[i0 i1] i2] i3]. rewrite elem_of_paired_candidates. split.
    + intros (H01 & H23 & Hnd%NoDup4_iff & Hb01 & Hb23)%elem_of_candidates_of.
      apply balanced_charges in Hb01 as (l0 & l1 & E0 & E1 & Hc01).
      apply balanced_charges in Hb23 as (l2 & l3 & E2 & E3 & Hc23).
      assert (U0 := Hunit l0 (list_elem_of_lookup_2 _ _ _ E0)).
      assert (U1 := Hunit l1 (list_elem_of_lookup_2 _ _ _ E1)).
      assert (U2 := Hunit l2 (list_elem_of_lookup_2 _ _ _ E2)).
      assert (U3 := Hunit l3 (list_elem_of_lookup_2 _ _ _ E3)).
      assert (Hfirst : ∃ a b la lb, leptons !! a = Some la ∧ leptons !! b = Some lb
                ∧ charge la = 1%Z ∧ charge lb = (-1)%Z ∧ a `min` b = i0 ∧ a `max` b = i1).
      { destruct (opposite_unit_charges _ _ U0 U1 Hc01) as [[? ?]|[? ?]];
          [exists i0, i1, l0, l1|exists i1, i0, l1, l0]; repeat split; auto; lia. }
      assert (Hsecond : ∃ a b la lb, leptons !! a = Some la ∧ leptons !! b = Some lb
                ∧ charge la = 1%Z ∧ charge lb = (-1)%Z ∧ a `min` b = i2 ∧ a `max` b = i3).
      { destruct (opposite_unit_charges _ _ U2 U3 Hc23) as [[? ?]|[? ?]];
          [exists i2, i3, l2, l3|exists i3, i2, l3, l2]; repeat split; auto; lia. }
      destruct Hfirst as (a & b & la & lb & Ea & Eb & Ca & Cb & Hmin & Hmax).
      destruct Hsecond as (a' & b' & la' & lb' & Ea' & Eb' & Ca' & Cb' & Hmin' & Hmax').
      exists a, b, a', b'. rewrite !elem_of_indices_of_charge.
      split; [eauto|]. split; [eauto|]. split; [eauto|]. split; [eauto|].
      split; [lia|]. split; [lia|]. by rewrite Hmin, Hmax, Hmin', Hmax'.
    + intros (a & b & a' & b' & (x & Hx & Cx)%elem_of_indices_of_charge
              & (z & Hz & Cz)%elem_of_indices_of_charge
              & (y & Hy & Cy)%elem_of_indices_of_charge
              & (w & Hw & Cw)%elem_of_indices_of_charge & Hna & Hnb & [= -> -> -> ->]).
      apply (candidates_of_two_pairs leptons a a' b b' x y z w); auto.
Qed.

(** X7: for an event of [p] leptons of charge [+1] and [m] of charge [-1], and
    no others, the finder returns [p (p - 1) m (m - 1)] candidates. *)
Theorem find_4lep_count {P4} (leptons : list (Lepton P4)) cs :
  (∀ l, l ∈ leptons → charge l = 1%Z ∨ charge l = (-1)%Z) →
  findCandidates leptons = Some cs →
  length cs
  = length (filter (λ m, charge m = 1%Z) leptons)
    * (length (filter (λ m, charge m = 1%Z) leptons) - 1)
    * length (filter (λ m, charge m = (-1)%Z) leptons)
    * (length (filter (λ m, charge m = (-1)%Z) leptons) - 1).
Proof.
  intros Hunit. rewrite findCandidates_eq. intros [= <-].
  rewrite (candidates_of_paired leptons Hunit).
  rewrite length_paired_candidates by apply NoDup_indices_of_charge.
  by rewrite !length_indices_of_charge.
Qed.

Lemma find_4lep_count_witness :
  length [(0, 1, 2, 3); (0, 1, 3, 4); (0, 3, 1, 2); (0, 3, 1, 4);
          (1, 2, 0, 3); (1, 2, 3, 4); (1, 4, 0, 3); (1, 4, 2, 3);
          (2, 3, 0, 1); (2, 3, 1, 4); (3, 4, 0, 1); (3, 4, 1, 2)]
  = length (filter (λ m, charge m = 1%Z) (map lepton_of_charge [1; -1; 1; -1; 1]%Z))
    * (length (filter (λ m, charge m = 1%Z) (map lepton_of_charge [1; -1; 1; -1; 1]%Z)) - 1)
    * length (filter (λ m, charge m = (-1)%Z) (map lepton_of_charge [1; -1; 1; -1; 1]%Z))
    * (length (filter (λ m, charge m = (-1)%Z) (map lepton_of_charge [1; -1; 1; -1; 1]%Z)) - 1).
Proof.
  apply (find_4lep_count (map lepton_of_charge [1; -1; 1; -1; 1]%Z)).
  - intros l Hl. cbn in Hl.
    repeat (apply elem_of_cons in Hl as [->|Hl]; [cbn; auto|]).
    by apply elem_of_nil in Hl.
  - vm_compute. reflexivity.
Defined.

(** ** Widening the mass windows *)

Lemma Qlt_bool_iff x y : Qlt_bool x y = true ↔ (x < y)%Q.
Proof.
  split; [apply Qlt_bool_lt|]. intros Hlt. unfold Qlt_bool.
  apply negb_true_iff. destruct (Qle_bool y x) eqn:E; [|done].
  apply Qle_bool_iff in E. by destruct (Qlt_not_le _ _ Hlt).
Qed.

Lemma fourmuon_sel_widen {P4} (p4_mass : P4 → Q) (deltaR : Lepton P4 → Lepton P4 → Q)
    (z1range z2range z1range' z2range' : Q * Q) (f : FourMuon P4) :
  (z1range'.1 <= z1range.1)%Q → (z1range.2 <= z1range'.2)%Q →
  (z2range'.1 <= z2range.1)%Q → (z2range.2 <= z2range'.2)%Q →
  fourmuon_sel p4_mass deltaR true z1range z2range f = true →
  fourmuon_sel p4_mass deltaR true z1range' z2range' f = true.
Proof.
  intros H1lo H1hi H2lo H2hi. cbn [fourmuon_sel].
  rewrite !andb_true_iff, !Qlt_bool_iff.
  intros [[[[[? ?] ?] ?] ?] ?].
  eauto 10 using Qle_lt_trans, Qlt_le_trans.
Qed.

(** X14: with [apply_Z_mass], widening the Z1 and Z2 mass windows only adds
    entries: each mass histogram of the run with the narrower windows is
    filled with a subsequence of the entries of the run with the wider
    ones. *)
Theorem RunSamples_window_monotone {P4} (p4_add : P4 → P4 → P4) (p4_mass zdist : P4 → Q)
    (deltaR : Lepton P4 → Lepton P4 → Q) (pfRelIso04_all : Lepton P4 → Q)
    (kinematic_cut quality_cut : Lepton P4 → bool)
    apply_muon_id (z1range z2range z1range' z2range' : Q * Q)
    (batches : list (list (list (Lepton P4)))) :
  (z1range'.1 <= z1range.1)%Q → (z1range.2 <= z1range'.2)%Q →
  (z2range'.1 <= z2range.1)%Q → (z2range.2 <= z2range'.2)%Q →
  ∃ narrow wide,
    RunSamples p4_add p4_mass zdist deltaR pfRelIso04_all kinematic_cut quality_cut
               apply_muon_id true z1range z2range batches = Some narrow
    ∧ RunSamples p4_add p4_mass zdist deltaR pfRelIso04_all kinematic_cut quality_cut
                 apply_muon_id true z1range' z2range' batches = Some wide
    ∧ m4l narrow `sublist_of` m4l wide
    ∧ mz1 narrow `sublist_of` mz1 wide
    ∧ mz2 narrow `sublist_of` mz2 wide.
Proof.
  intros H1lo H1hi H2lo H2hi. unfold RunSamples.
  rewrite !RunSamples_loop_concat, !RunSamples_batch_eq. cbv zeta.
  eexists _, _. split; [reflexivity|]. split; [reflexivity|].
  cbn [m4l mz1 mz2 new_hists app].
  repeat split; apply sublist_map, sublist_filter_mono; try done;
    intros f; by apply fourmuon_sel_widen.
Qed.

Lemma RunSamples_window_monotone_witness :
  ∃ narrow wide,
    RunSamples Qplus (λ m, m) zdist_of_mass (λ _ _, 1%Q) (λ _, 0%Q) (λ _, true) (λ _, true)
               false true (92, 100)%Q (12, 95)%Q
               [[[lepton_of_mass 1 30; lepton_of_mass (-1) 40;
                  lepton_of_mass 1 50; lepton_of_mass (-1) 61]]] = Some narrow
    ∧ RunSamples Qplus (λ m, m) zdist_of_mass (λ _ _, 1%Q) (λ _, 0%Q) (λ _, true) (λ _, true)
                 false true (80, 100)%Q (12, 120)%Q
                 [[[lepton_of_mass 1 30; lepton_of_mass (-1) 40;
                    lepton_of_mass 1 50; lepton_of_mass (-1) 61]]] = Some wide
    ∧ m4l narrow `sublist_of` m4l wide
    ∧ mz1 narrow `sublist_of` mz1 wide
    ∧ mz2 narrow `sublist_of` mz2 wide.
Proof.
  apply (RunSamples_window_monotone Qplus (λ m, m) zdist_of_mass (λ _ _, 1%Q) (λ _, 0%Q)
           (λ _, true) (λ _, true) false (92, 100)%Q (12, 95)%Q (80, 100)%Q (12, 120)%Q).
  - vm_compute. discriminate.
  - vm_compute. discriminate.
  - vm_compute. discriminate.
  - vm_compute. discriminate.
Defined.

(** ** Events without candidates at the pairing stage *)

Lemma has_tuples_candidates {P4} (muons : list (list (Lepton P4))) :
  has_tuples (map (λ ev, candidates_of (length ev) (charges ev)) muons) = true
  ↔ ∃ ev, ev ∈ muons ∧ candidates_of (length ev) (charges ev) ≠ [].
Proof.
  unfold has_tuples. rewrite bool_decide_eq_true. induction muons as [|m muons IH].
  - split; [done|]. by intros (ev & ?%elem_of_nil & _).
  - cbn [map concat]. split.
    + intros Hne. destruct (candidates_of (length m) (charges m)) as [|c cs] eqn:E.
      * destruct (proj1 IH Hne) as (ev & Hev & Hcs). exists ev. split; [by right|done].
      * exists m. split; [left|by rewrite E].
    + intros (ev & [->|Hev]%elem_of_cons & Hcs).
      * by destruct (candidates_of (length m) (charges m)).
      * intros [_ E]%app_eq_nil. apply IH in E; [done|eauto].
Qed.

Lemma pairing_batch {P4} (p4_add : P4 → P4 → P4) (zdist : P4 → Q)
    (muons : list (list (Lepton P4))) :
  ∃ fourmuon,
    mapM (λ ev, mapM (zip_fourmuon p4_add ev.1) ev.2)
         (zip muons (map (λ ev, candidates_of (length ev) (charges ev)) muons))
    = Some fourmuon
    ∧ select_batch zdist fourmuon = Some (concat (map (event_assignment p4_add zdist) muons)).
Proof.
  unfold select_batch. induction muons as [|m muons (fourmuon & Hzip & Hsel)].
  - by exists [].
  - destruct (event_select p4_add zdist m) as (fm & Hfm & Hpick & _).
    exists (fm :: fourmuon).
    cbn [map zip zip_with mapM fst snd].
    rewrite Hfm. cbn [mbind option_bind]. rewrite Hzip.
    split; [done|]. rewrite Hpick. cbn [mbind option_bind].
    destruct (mapM (select_event zdist) fourmuon) as [picked|]; [|done].
    cbn in Hsel. injection Hsel as Hsel. cbn. by rewrite Hsel.
Qed.

Lemma RunSamples_pairing_eq {P4} (p4_add : P4 → P4 → P4) (zdist : P4 → Q)
    (muons : list (list (Lepton P4))) :
  RunSamples_pairing p4_add zdist muons
  = if has_tuples (map (λ ev, candidates_of (length ev) (charges ev)) muons)
    then Some (concat (map (event_assignment p4_add zdist) muons))
    else None.
Proof.
  unfold RunSamples_pairing. rewrite find_4lep_snapshot_eq. cbn [mbind option_bind].
  destruct (has_tuples _); [|done].
  destruct (pairing_batch p4_add zdist muons) as (fourmuon & Hzip & Hsel).
  rewrite Hzip. cbn [mbind option_bind]. exact Hsel.
Qed.

(** Behind the event filter and the [continue] the pairing stage is never
    handed a snapshot without tuples: [RunSamples_fourmuon] is the pairing
    stage on the events that pass [muon_counts]. *)
Lemma RunSamples_fourmuon_pairing {P4} (p4_add : P4 → P4 → P4) (zdist : P4 → Q)
    (muons : list (list (Lepton P4))) :
  filter (λ m, muon_counts m = true) muons ≠ [] →
  RunSamples_fourmuon p4_add zdist muons
  = RunSamples_pairing p4_add zdist (filter (λ m, muon_counts m = true) muons).
Proof.
  intros Hne. rewrite RunSamples_fourmuon_eq, RunSamples_pairing_eq.
  destruct (filter (λ m, muon_counts m = true) muons) as [|m passed] eqn:E; [done|].
  assert (Hm : muon_counts m = true).
  { assert (Hin : m ∈ filter (λ m, muon_counts m = true) muons) by (rewrite E; left).
    by apply list_elem_of_filter in Hin as [? _]. }
  rewrite (proj2 (has_tuples_candidates (m :: passed))); [done|].
  exists m. split; [left|].
  destruct (muon_counts_selected p4_add zdist m Hm) as (Hlen & _).
  intros E'. by rewrite E' in Hlen.
Qed.



(** The batch of the witness: the event of four positive muons hands
    nothing on, the other one its selected assignment. *)
Example RunSamples_pairing_mixed :
  RunSamples_pairing Qplus zdist_of_mass
    [[lepton_of_mass 1 30; lepton_of_mass 1 40; lepton_of_mass 1 50; lepton_of_mass 1 61];
     [lepton_of_mass 1 30; lepton_of_mass (-1) 40;
      lepton_of_mass 1 50; lepton_of_mass (-1) 61]]
  = Some [mkFourMuon
            (mkZCand (lepton_of_mass 1 30) (lepton_of_mass (-1) 61) (30 + 61)%Q)
            (mkZCand (lepton_of_mass (-1) 40) (lepton_of_mass 1 50) (40 + 50)%Q)].
Proof. by vm_compute. Qed.

